(** * PromServerInterceptor: metric recording around gRPC server handlers

    A shallow embedding of [py_grpc_prometheus/prometheus_server_interceptor.py].

    The interceptor writes to process-wide Prometheus metrics and calls into
    opaque user code.  Both are modelled by a trace: every metric write, the
    invocation of the wrapped behaviour and every message that crosses the
    interceptor is an [event], and a computation returns the events it emitted
    together with its result and the new [world] (the timer and the state
    behind [servicer_context]). *)

From Stdlib Require Import List String ZArith Bool Lia.
Import ListNotations.
Local Open Scope string_scope.
Local Open Scope list_scope.

(** ** Values of the gRPC runtime *)

(** Messages are opaque to the interceptor. *)
Definition msg := string.

(** [grpc.StatusCode]. *)
Inductive StatusCode : Type :=
| OK | CANCELLED | UNKNOWN | INVALID_ARGUMENT | DEADLINE_EXCEEDED | NOT_FOUND
| ALREADY_EXISTS | PERMISSION_DENIED | RESOURCE_EXHAUSTED | FAILED_PRECONDITION
| ABORTED | OUT_OF_RANGE | UNIMPLEMENTED | INTERNAL | UNAVAILABLE | DATA_LOSS
| UNAUTHENTICATED.

(** [StatusCode.name]. *)
Definition name (c : StatusCode) : string :=
  match c with
  | OK => "OK" | CANCELLED => "CANCELLED" | UNKNOWN => "UNKNOWN"
  | INVALID_ARGUMENT => "INVALID_ARGUMENT"
  | DEADLINE_EXCEEDED => "DEADLINE_EXCEEDED" | NOT_FOUND => "NOT_FOUND"
  | ALREADY_EXISTS => "ALREADY_EXISTS"
  | PERMISSION_DENIED => "PERMISSION_DENIED"
  | RESOURCE_EXHAUSTED => "RESOURCE_EXHAUSTED"
  | FAILED_PRECONDITION => "FAILED_PRECONDITION" | ABORTED => "ABORTED"
  | OUT_OF_RANGE => "OUT_OF_RANGE" | UNIMPLEMENTED => "UNIMPLEMENTED"
  | INTERNAL => "INTERNAL" | UNAVAILABLE => "UNAVAILABLE"
  | DATA_LOSS => "DATA_LOSS" | UNAUTHENTICATED => "UNAUTHENTICATED"
  end.

(** Exceptions.  [RpcError call details] is an instance of [grpc.RpcError];
    [call] is [Some c] when the object is also a [grpc.Call] whose [code()]
    is [c].  [OtherError] is any exception outside [grpc.RpcError]. *)
Inductive exn : Type :=
| RpcError (call : option StatusCode) (details : string)
| OtherError (kind : string).

(** The state behind [servicer_context._state]. *)
Record rpc_state : Type := mk_rpc_state {
  client : string;
  code : option StatusCode
}.

(** ** Metrics *)

(** The ten metric objects imported from [server_metrics]. *)
Inductive metric : Type :=
| GRPC_SERVER_HANDLED_COUNTER
| GRPC_SERVER_HANDLED_HISTOGRAM
| GRPC_SERVER_STARTED_COUNTER
| GRPC_SERVER_STREAM_MSG_RECEIVED
| GRPC_SERVER_STREAM_MSG_SENT
| LEGACY_GRPC_SERVER_HANDLED_LATENCY_SECONDS
| LEGACY_GRPC_SERVER_HANDLED_TOTAL_COUNTER
| LEGACY_GRPC_SERVER_MSG_RECEIVED_TOTAL_COUNTER
| LEGACY_GRPC_SERVER_MSG_SENT_TOTAL_COUNTER
| LEGACY_GRPC_SERVER_STARTED_TOTAL_COUNTER.

Inductive family : Type := DefaultFamily | LegacyFamily.

Inductive role : Type := Started | Handled | Latency | Received | Sent.

Definition family_of (m : metric) : family :=
  match m with
  | GRPC_SERVER_HANDLED_COUNTER | GRPC_SERVER_HANDLED_HISTOGRAM
  | GRPC_SERVER_STARTED_COUNTER | GRPC_SERVER_STREAM_MSG_RECEIVED
  | GRPC_SERVER_STREAM_MSG_SENT => DefaultFamily
  | _ => LegacyFamily
  end.

Definition role_of (m : metric) : role :=
  match m with
  | GRPC_SERVER_STARTED_COUNTER
  | LEGACY_GRPC_SERVER_STARTED_TOTAL_COUNTER => Started
  | GRPC_SERVER_HANDLED_COUNTER
  | LEGACY_GRPC_SERVER_HANDLED_TOTAL_COUNTER => Handled
  | GRPC_SERVER_HANDLED_HISTOGRAM
  | LEGACY_GRPC_SERVER_HANDLED_LATENCY_SECONDS => Latency
  | GRPC_SERVER_STREAM_MSG_RECEIVED
  | LEGACY_GRPC_SERVER_MSG_RECEIVED_TOTAL_COUNTER => Received
  | GRPC_SERVER_STREAM_MSG_SENT
  | LEGACY_GRPC_SERVER_MSG_SENT_TOTAL_COUNTER => Sent
  end.

Definition family_eqb (a b : family) : bool :=
  match a, b with
  | DefaultFamily, DefaultFamily | LegacyFamily, LegacyFamily => true
  | _, _ => false
  end.

Definition role_eqb (a b : role) : bool :=
  match a, b with
  | Started, Started | Handled, Handled | Latency, Latency
  | Received, Received | Sent, Sent => true
  | _, _ => false
  end.

(** Modelled from the spec: [grpc_utils.get_method_type] is not part of the
    sources at hand; section 4.1 gives its mapping of the two streaming flags
    to the call type tag. *)
Inductive call_type : Type := UNARY | CLIENT_STREAM | SERVER_STREAM | BIDI_STREAM.

Definition get_method_type (request_streaming response_streaming : bool)
  : call_type :=
  match request_streaming, response_streaming with
  | false, false => UNARY
  | true, false => CLIENT_STREAM
  | false, true => SERVER_STREAM
  | true, true => BIDI_STREAM
  end.

(** The keyword arguments of [.labels(...)]. *)
Record labels : Type := mk_labels {
  grpc_type : call_type;
  grpc_service : string;
  grpc_method : string;
  label_code : option string
}.

(** ** Traces *)

(** Inbound elements are requests, consumed by the handler; outbound
    elements are responses, consumed by the runtime that sends them to the
    peer. *)
Inductive direction : Type := Inbound | Outbound.

Inductive event : Type :=
| Inc (m : metric) (l : labels)               (* m.labels(l).inc() *)
| Observe (m : metric) (l : labels) (v : Z)   (* m.labels(l).observe(v) *)
| Invoke                                      (* behavior(...) is entered *)
| Avail (d : direction) (x : msg)             (* the source sequence produced x *)
| Deliver (d : direction) (x : msg).          (* x reached its consumer *)

Definition trace := list event.

(** What a computation may read and change: the timer and the RPC state. *)
Record world : Type := mk_world {
  ticks : nat;          (* readings of [default_timer] taken so far *)
  rpc : rpc_state
}.

Inductive result (A : Type) : Type :=
| Ok (a : A)
| Exc (e : exn).
Arguments Ok {A} a.
Arguments Exc {A} e.

(** State, exceptions and emitted events. *)
Definition M (A : Type) : Type := world -> result A * world * trace.

Definition ret {A} (a : A) : M A := fun w => (Ok a, w, []).

Definition raise {A} (e : exn) : M A := fun w => (Exc e, w, []).

Definition bind {A B} (m : M A) (k : A -> M B) : M B :=
  fun w =>
    match m w with
    | (Ok a, w1, t1) => let '(r, w2, t2) := k a w1 in (r, w2, t1 ++ t2)
    | (Exc e, w1, t1) => (Exc e, w1, t1)
    end.

Notation "x <- m ;; k" := (bind m (fun x => k))
  (at level 61, m at next level, right associativity).
Notation "m ;;; k" := (bind m (fun _ => k))
  (at level 61, right associativity).

Definition emit (e : event) : M unit := fun w => (Ok tt, w, [e]).

Definition is_RpcError (e : exn) : bool :=
  match e with RpcError _ _ => true | OtherError _ => false end.

(** [try: m except grpc.RpcError as e: h e]. *)
Definition try_except_RpcError {A} (m : M A) (h : exn -> M A) : M A :=
  fun w =>
    match m w with
    | (Exc e, w1, t1) =>
        if is_RpcError e
        then let '(r, w2, t2) := h e w1 in (r, w2, t1 ++ t2)
        else (Exc e, w1, t1)
    | done => done
    end.

(** [try: m finally: f].  The outcome of [m] is kept unless [f] raises. *)
Definition try_finally {A} (m : M A) (f : M unit) : M A :=
  fun w =>
    let '(r, w1, t1) := m w in
    match f w1 with
    | (Ok _, w2, t2) => (r, w2, t1 ++ t2)
    | (Exc e, w2, t2) => (Exc e, w2, t1 ++ t2)
    end.

(** ** Python values that may be iterated *)

Inductive pull : Type :=
| Item (x : msg)
| Stop                 (* StopIteration *)
| Raised (e : exn).

(** A value passed as [request_or_iterator] or returned as
    [response_or_iterator]: a plain message, an iterator supplied by a
    collaborator (with its state [S]), or a generator made by
    [wrap_iterator_inc_counter].  [Done] is a generator that has finished. *)
Inductive pyval (S : Type) : Type :=
| Obj (x : msg)
| Src (s : S)
| Count (inner : pyval S) (counter : metric) (l : labels)
| Done.
Arguments Obj {S} x.
Arguments Src {S} s.
Arguments Count {S} inner counter l.
Arguments Done {S}.

(** Modelled from the spec: [grpc_utils.wrap_iterator_inc_counter] is not part
    of the sources at hand.  By section 4.2 it returns a lazy single-pass
    sequence over [iterator] that forwards every pull, increments [counter]
    once for each element produced, immediately before handing it on, and
    forwards the end of the sequence and any error unchanged. *)
Definition wrap_iterator_inc_counter {S} (iterator : pyval S) (counter : metric)
  (grpc_type : call_type) (grpc_service_name grpc_method_name : string)
  : pyval S :=
  Count iterator counter
        (mk_labels grpc_type grpc_service_name grpc_method_name None).

Section Next.
Context {S : Type}.
Variable next_src : S -> world -> pull * S * world * trace.

(** [next(v)].  A message is not iterable; a finished generator keeps
    raising StopIteration. *)
Fixpoint next (v : pyval S) (w : world) : pull * pyval S * world * trace :=
  match v with
  | Obj x => (Raised (OtherError "TypeError"), Obj x, w, [])
  | Src s => let '(p, s', w', t) := next_src s w in (p, Src s', w', t)
  | Count inner counter l =>
      match next inner w with
      | (Item x, inner', w', t) =>
          (Item x, Count inner' counter l, w', t ++ [Inc counter l])
      | (p, _, w', t) => (p, Done, w', t)
      end
  | Done => (Stop, Done, w, [])
  end.
End Next.

(** The request stream handed over by the transport: the elements still to
    come and how the stream ends. *)
Record stream : Type := mk_stream {
  items : list msg;
  fin : option exn
}.

Definition next_stream (s : stream) (w : world) : pull * stream * world * trace :=
  match items s with
  | x :: rest => (Item x, mk_stream rest (fin s), w, [Avail Inbound x])
  | [] => match fin s with
          | None => (Stop, s, w, [])
          | Some e => (Raised e, s, w, [])
          end
  end.

Definition request_value := pyval stream.

(** [next(request_iterator)] as executed inside the handler. *)
Definition handler_next (rv : request_value) (w : world)
  : pull * request_value * world * trace :=
  match next next_stream rv w with
  | (Item x, rv', w', t) => (Item x, rv', w', t ++ [Deliver Inbound x])
  | other => other
  end.

(** ** Handlers

    The wrapped behaviour is user code.  It is given as the tree of what it
    does with its collaborators: pull a request, touch the RPC state (this
    also covers the transport marking the call cancelled while the handler
    runs), and finally return or raise.  A response-streaming handler returns
    a generator, which is such a tree with yields. *)
Inductive hgen : Type :=
| GStop
| GRaise (e : exn)
| GYield (x : msg) (k : hgen)
| GNext (k : pull -> hgen)
| GState (f : rpc_state -> rpc_state) (k : hgen).

Inductive hreturn : Type :=
| RetMsg (x : msg)
| RetGen (g : hgen).

Inductive hbody : Type :=
| BReturn (r : hreturn)
| BRaise (e : exn)
| BNext (k : pull -> hbody)
| BState (f : rpc_state -> rpc_state) (k : hbody).

(** A generator object of the handler: the code still to run and the request
    value its frame refers to. *)
Definition frame : Type := hgen * request_value.

Definition response_value := pyval frame.

Definition set_rpc (f : rpc_state -> rpc_state) (w : world) : world :=
  mk_world (ticks w) (f (rpc w)).

Fixpoint next_hgen (g : hgen) (rv : request_value) (w : world)
  : pull * frame * world * trace :=
  match g with
  | GStop => (Stop, (GStop, rv), w, [])
  | GRaise e => (Raised e, (GStop, rv), w, [])
  | GYield x k => (Item x, (k, rv), w, [Avail Outbound x])
  | GNext k =>
      let '(p, rv1, w1, t1) := handler_next rv w in
      let '(r, fr, w2, t2) := next_hgen (k p) rv1 w1 in
      (r, fr, w2, t1 ++ t2)
  | GState f k => next_hgen k rv (set_rpc f w)
  end.

Definition next_frame (fr : frame) (w : world) : pull * frame * world * trace :=
  next_hgen (fst fr) (snd fr) w.

Fixpoint run_body (b : hbody) (rv : request_value) (w : world)
  : result response_value * world * trace :=
  match b with
  | BReturn (RetMsg x) => (Ok (Obj x), w, [])
  | BReturn (RetGen g) => (Ok (Src (g, rv)), w, [])
  | BRaise e => (Exc e, w, [])
  | BNext k =>
      let '(p, rv1, w1, t1) := handler_next rv w in
      let '(r, w2, t2) := run_body (k p) rv1 w1 in
      (r, w2, t1 ++ t2)
  | BState f k => run_body k rv (set_rpc f w)
  end.

Definition rpc_behavior := request_value -> hbody.

(** [behavior(request_or_iterator, servicer_context)]; calling [None] is a
    TypeError. *)
Definition call (b : option rpc_behavior) (request_or_iterator : request_value)
  : M response_value :=
  match b with
  | Some f =>
      emit Invoke ;;;
      run_body (f request_or_iterator) request_or_iterator
  | None => raise (OtherError "TypeError")
  end.

(** [next(response_iterator)] as executed by the runtime that sends the
    responses to the peer. *)
Definition caller_next (v : response_value) (w : world)
  : pull * response_value * world * trace :=
  match next next_frame v w with
  | (Item x, v', w', t) => (Item x, v', w', t ++ [Deliver Outbound x])
  | other => other
  end.

(** ** The interceptor *)

Record PromServerInterceptor : Type := mk_interceptor {
  _enable_handling_time_histogram : bool;
  _legacy : bool
}.

Section Interceptor.
(** [timeit.default_timer]: the n-th reading of the clock.  Nothing is
    assumed about the readings. *)
Variable timer : nat -> Z.

Definition default_timer : M Z :=
  fun w => (Ok (timer (ticks w)), mk_world (S (ticks w)) (rpc w), []).

Definition get_rpc_state : M rpc_state := fun w => (Ok (rpc w), w, []).

(** [max(a, 0)] of Python: the first argument unless the second is
    greater. *)
Definition max0 (a : Z) : Z := if (0 >? a)%Z then 0%Z else a.

Definition _compute_status_code (servicer_context : rpc_state) : StatusCode :=
  if String.eqb (client servicer_context) "cancelled" then CANCELLED
  else match code servicer_context with
       | None => OK
       | Some c => c
       end.

Definition _compute_error_code (grpc_exception : exn) : string :=
  match grpc_exception with
  | RpcError (Some c) _ => name c
  | _ => name UNKNOWN
  end.

Definition new_behavior (self : PromServerInterceptor)
  (grpc_service_name grpc_method_name : string)
  (behavior : option rpc_behavior) (request_streaming response_streaming : bool)
  (request_or_iterator : request_value) : M response_value :=
  start <- default_timer ;;
  let grpc_type := get_method_type request_streaming response_streaming in
  let lbl := mk_labels grpc_type grpc_service_name grpc_method_name in
  try_finally
    (try_except_RpcError
       (let received_metric :=
          if _legacy self then LEGACY_GRPC_SERVER_MSG_RECEIVED_TOTAL_COUNTER
          else GRPC_SERVER_STREAM_MSG_RECEIVED in
        request_or_iterator <-
          (if request_streaming then
             let request_or_iterator :=
               wrap_iterator_inc_counter request_or_iterator
                 GRPC_SERVER_STREAM_MSG_RECEIVED
                 grpc_type grpc_service_name grpc_method_name in
             if negb (_legacy self) then
               ret (wrap_iterator_inc_counter request_or_iterator
                      GRPC_SERVER_STREAM_MSG_SENT
                      grpc_type grpc_service_name grpc_method_name)
             else ret request_or_iterator
           else
             (if _legacy self then
                emit (Inc LEGACY_GRPC_SERVER_STARTED_TOTAL_COUNTER (lbl None))
              else
                emit (Inc GRPC_SERVER_STARTED_COUNTER (lbl None))) ;;;
             ret request_or_iterator) ;;
        response_or_iterator <- call behavior request_or_iterator ;;
        response_or_iterator <-
          (if response_streaming then
             let sent_metric :=
               if _legacy self then LEGACY_GRPC_SERVER_MSG_SENT_TOTAL_COUNTER
               else GRPC_SERVER_STREAM_MSG_SENT in
             let response_or_iterator :=
               if negb (_legacy self) then
                 wrap_iterator_inc_counter response_or_iterator
                   GRPC_SERVER_STREAM_MSG_RECEIVED
                   grpc_type grpc_service_name grpc_method_name
               else response_or_iterator in
             ret (wrap_iterator_inc_counter response_or_iterator
                    sent_metric
                    grpc_type grpc_service_name grpc_method_name)
           else
             servicer_context <- get_rpc_state ;;
             (if _legacy self then
                emit (Inc LEGACY_GRPC_SERVER_HANDLED_TOTAL_COUNTER
                        (lbl (Some (name (_compute_status_code servicer_context)))))
              else
                emit (Inc GRPC_SERVER_HANDLED_COUNTER
                        (lbl (Some (name (_compute_status_code servicer_context)))))) ;;;
             ret response_or_iterator) ;;
        ret response_or_iterator)
       (fun e =>
          (if _legacy self then
             emit (Inc LEGACY_GRPC_SERVER_HANDLED_TOTAL_COUNTER
                     (lbl (Some (_compute_error_code e))))
           else
             emit (Inc GRPC_SERVER_HANDLED_COUNTER
                     (lbl (Some (_compute_error_code e))))) ;;;
          raise e))
    (if negb response_streaming then
       if _legacy self then
         now <- default_timer ;;
         emit (Observe LEGACY_GRPC_SERVER_HANDLED_LATENCY_SECONDS (lbl None)
                 (max0 (now - start)))
       else if _enable_handling_time_histogram self then
         now <- default_timer ;;
         emit (Observe GRPC_SERVER_HANDLED_HISTOGRAM (lbl None)
                 (max0 (now - start)))
       else ret tt
     else ret tt).

Definition metrics_wrapper (self : PromServerInterceptor)
  (grpc_service_name grpc_method_name : string)
  (behavior : option rpc_behavior) (request_streaming response_streaming : bool)
  : request_value -> M response_value :=
  new_behavior self grpc_service_name grpc_method_name
               behavior request_streaming response_streaming.
End Interceptor.

(** ** Handler objects *)

(** (De)serializers are opaque callables on messages. *)
Definition codec : Type := msg -> msg.

(** [grpc.RpcMethodHandler], for behaviours of type [B]. *)
Record RpcMethodHandler (B : Type) : Type := mk_handler {
  request_streaming : bool;
  response_streaming : bool;
  request_deserializer : option codec;
  response_serializer : option codec;
  unary_unary : option B;
  unary_stream : option B;
  stream_unary : option B;
  stream_stream : option B
}.
Arguments mk_handler {B}.
Arguments request_streaming {B}.
Arguments response_streaming {B}.
Arguments request_deserializer {B}.
Arguments response_serializer {B}.
Arguments unary_unary {B}.
Arguments unary_stream {B}.
Arguments stream_unary {B}.
Arguments stream_stream {B}.

(** The four handler factories of [grpc]. *)
Definition unary_unary_rpc_method_handler {B} (behavior : B)
  (request_deserializer response_serializer : option codec)
  : RpcMethodHandler B :=
  mk_handler false false request_deserializer response_serializer
             (Some behavior) None None None.

Definition unary_stream_rpc_method_handler {B} (behavior : B)
  (request_deserializer response_serializer : option codec)
  : RpcMethodHandler B :=
  mk_handler false true request_deserializer response_serializer
             None (Some behavior) None None.

Definition stream_unary_rpc_method_handler {B} (behavior : B)
  (request_deserializer response_serializer : option codec)
  : RpcMethodHandler B :=
  mk_handler true false request_deserializer response_serializer
             None None (Some behavior) None.

Definition stream_stream_rpc_method_handler {B} (behavior : B)
  (request_deserializer response_serializer : option codec)
  : RpcMethodHandler B :=
  mk_handler true true request_deserializer response_serializer
             None None None (Some behavior).

Definition _wrap_rpc_behavior {B B'} (handler : option (RpcMethodHandler B))
  (fn : option B -> bool -> bool -> B') : option (RpcMethodHandler B') :=
  match handler with
  | None => None
  | Some handler =>
      let '(behavior_fn, handler_factory) :=
        if request_streaming handler && response_streaming handler then
          (stream_stream handler, stream_stream_rpc_method_handler)
        else if request_streaming handler && negb (response_streaming handler) then
          (stream_unary handler, stream_unary_rpc_method_handler)
        else if negb (request_streaming handler) && response_streaming handler then
          (unary_stream handler, unary_stream_rpc_method_handler)
        else
          (unary_unary handler, unary_unary_rpc_method_handler) in
      Some (handler_factory
              (fn behavior_fn (request_streaming handler) (response_streaming handler))
              (request_deserializer handler)
              (response_serializer handler))
  end.

Record handler_call_details : Type := mk_details {
  method : string
}.

Definition instrumented := request_value -> M response_value.

Section Service.
Variable timer : nat -> Z.

(** [grpc_utils.split_method_call] is not part of the sources at hand.  It
    is taken as given: applied to the call details it returns a triple
    whose first two components are the service and the method name, or it
    fails. *)
Variable split_method_call : handler_call_details -> result (string * string * bool).

Definition intercept_service (self : PromServerInterceptor)
  (continuation : handler_call_details -> option (RpcMethodHandler rpc_behavior))
  (details : handler_call_details)
  : M (option (RpcMethodHandler instrumented)) :=
  parts <- (fun w => (split_method_call details, w, [])) ;;
  let '(grpc_service_name, grpc_method_name, _) := parts in
  let optional_any :=
    _wrap_rpc_behavior (continuation details)
      (metrics_wrapper timer self grpc_service_name grpc_method_name) in
  ret optional_any.
End Service.

(** ** The runtime around one call *)

(** What the transport hands to the entry point of a handler. *)
Inductive request : Type :=
| Message (x : msg)
| Messages (s : stream).

Definition of_request (r : request) : request_value :=
  match r with
  | Message x => Obj x
  | Messages s => Src s
  end.

(** The runtime pulls at most [pulls] times from a response iterator, and
    stops at the end of the sequence or at the first error. *)
Fixpoint drain (pulls : nat) (v : response_value) : M response_value :=
  fun w =>
    match pulls with
    | O => (Ok v, w, [])
    | S n =>
        match caller_next v w with
        | (Item x, v', w', t) =>
            let '(r, w'', t') := drain n v' w' in (r, w'', t ++ t')
        | (Stop, v', w', t) => (Ok v', w', t)
        | (Raised e, v', w', t) => (Exc e, w', t)
        end
    end.

(** One call through the instrumented handler: the entry point is run, and a
    streamed response is then consumed. *)
Definition serve (timer : nat -> Z) (self : PromServerInterceptor)
  (grpc_service_name grpc_method_name : string) (f : rpc_behavior)
  (request_streaming response_streaming : bool) (r : request) (pulls : nat)
  : M response_value :=
  v <- new_behavior timer self grpc_service_name grpc_method_name (Some f)
         request_streaming response_streaming (of_request r) ;;
  if response_streaming then drain pulls v else ret v.

(** ** Reading traces *)

Definition outcome_of {A} (x : result A * world * trace) : result A :=
  fst (fst x).
Definition world_of {A} (x : result A * world * trace) : world :=
  snd (fst x).
Definition trace_of {A} (x : result A * world * trace) : trace :=
  snd x.

(** Number of increments of a metric with the given role. *)
Fixpoint count_inc (r : role) (t : trace) : nat :=
  match t with
  | [] => 0
  | Inc m _ :: t' =>
      (if role_eqb (role_of m) r then 1 else 0) + count_inc r t'
  | _ :: t' => count_inc r t'
  end.

Definition is_observe (e : event) : bool :=
  match e with Observe _ _ _ => true | _ => false end.

Definition observations (t : trace) : trace := filter is_observe t.

(** The metrics written by a trace, in order. *)
Fixpoint written (t : trace) : list metric :=
  match t with
  | [] => []
  | Inc m _ :: t' => m :: written t'
  | Observe m _ _ :: t' => m :: written t'
  | _ :: t' => written t'
  end.

Definition is_legacy (m : metric) : bool := family_eqb (family_of m) LegacyFamily.

(** The elements that reached their consumer, in order. *)
Fixpoint deliveries (t : trace) : list (direction * msg) :=
  match t with
  | [] => []
  | Deliver d x :: t' => (d, x) :: deliveries t'
  | _ :: t' => deliveries t'
  end.

Definition is_inbound (dx : direction * msg) : bool :=
  match fst dx with Inbound => true | Outbound => false end.

Definition inbound (t : trace) : nat :=
  List.length (filter is_inbound (deliveries t)).

Definition outbound (t : trace) : nat :=
  List.length (filter (fun dx => negb (is_inbound dx)) (deliveries t)).

(** The counters the interceptor puts around the request sequence and around
    the response sequence, innermost first. *)
Definition request_counters (self : PromServerInterceptor)
  (request_streaming : bool) : list metric :=
  if request_streaming then
    GRPC_SERVER_STREAM_MSG_RECEIVED ::
      (if _legacy self then [] else [GRPC_SERVER_STREAM_MSG_SENT])
  else [].

Definition response_counters (self : PromServerInterceptor)
  (response_streaming : bool) : list metric :=
  if response_streaming then
    if _legacy self then [LEGACY_GRPC_SERVER_MSG_SENT_TOTAL_COUNTER]
    else [GRPC_SERVER_STREAM_MSG_RECEIVED; GRPC_SERVER_STREAM_MSG_SENT]
  else [].

(** The events of one element on its way through the interceptor: it becomes
    available, the counters around its sequence are incremented, and it is
    delivered. *)
Definition element_events (self : PromServerInterceptor)
  (request_streaming response_streaming : bool) (l : labels)
  (dx : direction * msg) : trace :=
  let '(d, x) := dx in
  Avail d x ::
    map (fun m => Inc m l)
        (match d with
         | Inbound => request_counters self request_streaming
         | Outbound => response_counters self response_streaming
         end)
    ++ [Deliver d x].

Definition call_labels (request_streaming response_streaming : bool)
  (grpc_service_name grpc_method_name : string) : option string -> labels :=
  mk_labels (get_method_type request_streaming response_streaming)
            grpc_service_name grpc_method_name.

Definition started_metric (self : PromServerInterceptor) : metric :=
  if _legacy self then LEGACY_GRPC_SERVER_STARTED_TOTAL_COUNTER
  else GRPC_SERVER_STARTED_COUNTER.

Definition handled_metric (self : PromServerInterceptor) : metric :=
  if _legacy self then LEGACY_GRPC_SERVER_HANDLED_TOTAL_COUNTER
  else GRPC_SERVER_HANDLED_COUNTER.

(** The request value the wrapped behaviour receives. *)
Definition instrumented_request (self : PromServerInterceptor)
  (request_streaming : bool) (l : labels) (rv : request_value)
  : request_value :=
  if request_streaming then
    if _legacy self then Count rv GRPC_SERVER_STREAM_MSG_RECEIVED l
    else Count (Count rv GRPC_SERVER_STREAM_MSG_RECEIVED l)
               GRPC_SERVER_STREAM_MSG_SENT l
  else rv.

(** What the wrapped behaviour does when the instrumented handler invokes
    it: the first reading of the timer has been taken, and the behaviour
    runs on the instrumented request. *)
Definition handler_run (self : PromServerInterceptor)
  (grpc_service_name grpc_method_name : string) (f : rpc_behavior)
  (request_streaming response_streaming : bool) (r : request) (w : world)
  : result response_value * world * trace :=
  let rv :=
    instrumented_request self request_streaming
      (call_labels request_streaming response_streaming
                   grpc_service_name grpc_method_name None)
      (of_request r) in
  run_body (f rv) rv (mk_world (S (ticks w)) (rpc w)).

(** ** Describing what a call records *)

(** Number of metrics of a role in a list of counters. *)
Definition count_role (r : role) (ms : list metric) : nat :=
  List.length (filter (fun m => role_eqb (role_of m) r) ms).

(** [chain cs l b]: the value [b] inside one counting generator for each
    metric of [cs], the first of them innermost. *)
Fixpoint chain {S} (cs : list metric) (l : labels) (b : pyval S) : pyval S :=
  match cs with
  | [] => b
  | c :: cs' => chain cs' l (Count b c l)
  end.

(** A value that is not a counting generator. *)
Definition bare {S} (b : pyval S) : Prop :=
  match b with Count _ _ _ => False | _ => True end.

(** A value as the interceptor leaves it: a collaborator's value inside the
    counters [cs], or a generator that has finished. *)
Definition wrapped {S} (cs : list metric) (l : labels) (v : pyval S) : Prop :=
  v = Done \/ exists b, bare b /\ v = chain cs l b.

(** The events of one request element, for counters [cs]. *)
Definition inbound_events (cs : list metric) (l : labels) (x : msg) : trace :=
  Avail Inbound x :: map (fun m => Inc m l) cs ++ [Deliver Inbound x].

(** A trace that consists of the events of the elements it delivers. *)
Definition elementwise (self : PromServerInterceptor) (rs ps : bool)
  (l : labels) (t : trace) : Prop :=
  t = flat_map (element_events self rs ps l) (deliveries t).

(** What a handler may return: a message, or a generator whose frame holds
    the instrumented request. *)
Definition returned (self : PromServerInterceptor) (rs : bool) (l : labels)
  (r : result response_value) : Prop :=
  match r with
  | Ok (Obj _) => True
  | Ok (Src (_, rv)) => wrapped (request_counters self rs) l rv
  | Ok _ => False
  | Exc _ => True
  end.

(** The values under the response counters. *)
Definition response_base (self : PromServerInterceptor) (rs : bool) (l : labels)
  (b : response_value) : Prop :=
  match b with
  | Obj _ | Done => True
  | Src (_, rv) => wrapped (request_counters self rs) l rv
  | Count _ _ _ => False
  end.

Definition response_wrapped (self : PromServerInterceptor) (rs ps : bool)
  (l : labels) (v : response_value) : Prop :=
  v = Done
  \/ exists b, response_base self rs l b
               /\ v = chain (response_counters self ps) l b.

Definition started_events (self : PromServerInterceptor)
  (request_streaming : bool) (l : labels) : trace :=
  if request_streaming then [] else [Inc (started_metric self) l].

(** The reading of the timer in the [finally] block, if one is taken there. *)
Definition observes (self : PromServerInterceptor) (response_streaming : bool)
  : bool :=
  negb response_streaming && (_legacy self || _enable_handling_time_histogram self).

Definition latency_metric (self : PromServerInterceptor) : metric :=
  if _legacy self then LEGACY_GRPC_SERVER_HANDLED_LATENCY_SECONDS
  else GRPC_SERVER_HANDLED_HISTOGRAM.

Definition latency_events (timer : nat -> Z) (self : PromServerInterceptor)
  (response_streaming : bool) (l : labels) (start now : nat) : trace :=
  if observes self response_streaming
  then [Observe (latency_metric self) l (max0 (timer now - timer start))]
  else [].

Definition after_finally (self : PromServerInterceptor)
  (response_streaming : bool) (w : world) : world :=
  if observes self response_streaming
  then mk_world (S (ticks w)) (rpc w) else w.

Definition error_events (self : PromServerInterceptor)
  (lbl : option string -> labels) (e : exn) : trace :=
  if is_RpcError e
  then [Inc (handled_metric self) (lbl (Some (_compute_error_code e)))]
  else [].

(** What is recorded once the wrapped behaviour has returned or raised. *)
Definition completion_events (timer : nat -> Z) (self : PromServerInterceptor)
  (ps : bool) (lbl : option string -> labels) (start : nat)
  (rb : result response_value) (wb : world) : trace :=
  match rb with
  | Ok _ =>
      if ps then []
      else Inc (handled_metric self)
               (lbl (Some (name (_compute_status_code (rpc wb)))))
             :: latency_events timer self ps (lbl None) start (S start)
  | Exc e =>
      error_events self lbl e
        ++ latency_events timer self ps (lbl None) start (S start)
  end.

Definition is_outbound (dx : direction * msg) : bool := negb (is_inbound dx).

(** ** Sample calls *)

(** A clock whose second reading lies before the first. *)
Definition stepping_back (n : nat) : Z :=
  match n with
  | O => 10%Z
  | S O => 7%Z
  | _ => 20%Z
  end.

Definition open_call : world := mk_world 0 (mk_rpc_state "open" None).

Definition legacy_interceptor : PromServerInterceptor := mk_interceptor false true.
Definition default_interceptor : PromServerInterceptor := mk_interceptor false false.

Definition say_hello : rpc_behavior := fun _ => BReturn (RetMsg "hello").
Definition not_found : rpc_behavior :=
  fun _ => BRaise (RpcError (Some NOT_FOUND) "no such user").
Definition value_error : rpc_behavior := fun _ => BRaise (OtherError "ValueError").
Definition collect_one : rpc_behavior :=
  fun _ => BNext (fun _ => BReturn (RetMsg "summary")).
Definition echo_one : rpc_behavior :=
  fun _ => BReturn (RetGen (GNext (fun _ => GYield "pong" GStop))).

(** The events after the invocation of the wrapped behaviour. *)
Fixpoint after_invoke (t : trace) : trace :=
  match t with
  | [] => []
  | Invoke :: t' => t'
  | _ :: t' => after_invoke t'
  end.

(** The elements that became available, in order. *)
Fixpoint availabilities (t : trace) : list (direction * msg) :=
  match t with
  | [] => []
  | Avail d x :: t' => (d, x) :: availabilities t'
  | _ :: t' => availabilities t'
  end.

(** The entry point of a handler object for a shape. *)
Definition entry_point {B} (rs ps : bool) (h : RpcMethodHandler B) : option B :=
  match rs, ps with
  | true, true => stream_stream h
  | true, false => stream_unary h
  | false, true => unary_stream h
  | false, false => unary_unary h
  end.

(** ** The call without the interceptor *)

(** The same call when the runtime invokes the behaviour directly: the
    behaviour gets the request as the transport hands it over, and a
    streamed response is consumed. *)
Definition serve_plain (f : rpc_behavior) (response_streaming : bool)
  (r : request) (pulls : nat) : M response_value :=
  v <- call (Some f) (of_request r) ;;
  if response_streaming then drain pulls v else ret v.

Definition is_metric_event (e : event) : bool :=
  match e with
  | Inc _ _ | Observe _ _ _ => true
  | _ => false
  end.

(** A trace without its metric writes: the invocation and the messages. *)
Definition messages (t : trace) : trace :=
  filter (fun e => negb (is_metric_event e)) t.

(** The error a computation ended with, if any. *)
Definition failure {A} (r : result A) : option exn :=
  match r with
  | Ok _ => None
  | Exc e => Some e
  end.

(** The message a computation returned, if it returned one. *)
Definition reply (r : result response_value) : option msg :=
  match r with
  | Ok (Obj x) => Some x
  | _ => None
  end.

(** A request of the kind its handler declares, whose stream, if it is one,
    ends without an error. *)
Definition orderly (request_streaming : bool) (r : request) : Prop :=
  match request_streaming, r with
  | true, Messages s => fin s = None
  | true, Message _ => False
  | false, _ => True
  end.

(** An instrumented request value and the plain value it stands for. *)
Definition request_sim (cs : list metric) (l : labels)
  (a b : request_value) : Prop :=
  (bare a /\ a = b)
  \/ (exists s, fin s = None /\ a = chain cs l (Src s) /\ b = Src s)
  \/ (a = Done /\ b = Src (mk_stream [] None)).

(** What the behaviour returned on an instrumented request and on the plain
    one. *)
Definition returned_sim (cs : list metric) (l : labels)
  (a b : result response_value) : Prop :=
  match a, b with
  | Ok (Obj x), Ok (Obj y) => x = y
  | Ok (Src (g, rv)), Ok (Src (g', rv')) => g = g' /\ request_sim cs l rv rv'
  | Exc e, Exc e' => e = e'
  | _, _ => False
  end.

(** An instrumented response value and the plain value it stands for. *)
Definition response_sim (cs cp : list metric) (l : labels)
  (a b : response_value) : Prop :=
  exists a0,
    a = chain cp l a0
    /\ match a0, b with
       | Obj x, Obj y => x = y
       | Src (g, rv), Src (g', rv') => g = g' /\ request_sim cs l rv rv'
       | _, _ => False
       end.

(** The labels of a metric write of a call: the type, service and method of
    the call, and a status name as code on handled increments only. *)
Definition well_labelled (rs ps : bool) (svc mth : string) (e : event) : Prop :=
  match e with
  | Inc m l | Observe m l _ =>
      grpc_type l = get_method_type rs ps
      /\ grpc_service l = svc /\ grpc_method l = mth
      /\ (if role_eqb (role_of m) Handled
          then exists c, label_code l = Some (name c)
          else label_code l = None)
  | _ => True
  end.

(** * Properties *)

(** ** Traces and their readings *)

Lemma count_inc_app (r : role) (a b : trace) :
  count_inc r (a ++ b) = count_inc r a + count_inc r b.
Proof.
  induction a as [|e a IH]; simpl; [reflexivity|].
  destruct e; simpl; rewrite IH; lia.
Qed.

Lemma observations_app (a b : trace) :
  observations (a ++ b) = observations a ++ observations b.
Proof. unfold observations. apply filter_app. Qed.

Lemma written_app (a b : trace) : written (a ++ b) = written a ++ written b.
Proof.
  induction a as [|e a IH]; simpl; [reflexivity|].
  destruct e; simpl; rewrite IH; reflexivity.
Qed.

Lemma deliveries_app (a b : trace) :
  deliveries (a ++ b) = deliveries a ++ deliveries b.
Proof.
  induction a as [|e a IH]; simpl; [reflexivity|].
  destruct e; simpl; rewrite IH; reflexivity.
Qed.

Lemma deliveries_incs (l : labels) (ms : list metric) :
  deliveries (map (fun m => Inc m l) ms) = [].
Proof. induction ms; simpl; auto. Qed.

Lemma observations_incs (l : labels) (ms : list metric) :
  observations (map (fun m => Inc m l) ms) = [].
Proof. induction ms; simpl; auto. Qed.

Lemma count_inc_incs (r : role) (l : labels) (ms : list metric) :
  count_inc r (map (fun m => Inc m l) ms) = count_role r ms.
Proof.
  unfold count_role.
  induction ms as [|m ms IH]; simpl; [reflexivity|].
  rewrite IH. destruct (role_eqb (role_of m) r); reflexivity.
Qed.

Lemma max0_max (a : Z) : max0 a = Z.max a 0.
Proof. unfold max0. destruct (Z.gtb_spec 0 a); lia. Qed.

(** ** Wrapped sequences *)

Lemma next_chain {S} (ns : S -> world -> pull * S * world * trace)
  (l : labels) (cs : list metric) :
  forall (b : pyval S) (w : world),
    next ns (chain cs l b) w =
    match next ns b w with
    | (Item x, b', w', t) =>
        (Item x, chain cs l b', w', t ++ map (fun m => Inc m l) cs)
    | (p, b', w', t) =>
        (p, match cs with [] => b' | _ => Done end, w', t)
    end.
Proof.
  induction cs as [|c cs IH]; intros b w; simpl.
  - destruct (next ns b w) as [[[p b'] w'] t].
    destruct p; rewrite ?app_nil_r; reflexivity.
  - rewrite IH. simpl.
    destruct (next ns b w) as [[[p b'] w'] t].
    destruct p; simpl; [rewrite <- app_assoc; reflexivity| |];
      destruct cs; reflexivity.
Qed.

(** The counting generators forward what the sequence under them does: the
    same element, the end of the sequence, or the same error. *)
Lemma wrappers_forward {S} (ns : S -> world -> pull * S * world * trace)
  (l : labels) (cs : list metric) (b : pyval S) (w : world) :
  fst (fst (fst (next ns (chain cs l b) w))) = fst (fst (fst (next ns b w))).
Proof.
  rewrite next_chain.
  destruct (next ns b w) as [[[p b'] w'] t]. destruct p; reflexivity.
Qed.

Lemma wrapped_chain {S} (cs : list metric) (l : labels) (b : pyval S) :
  bare b -> wrapped cs l (chain cs l b).
Proof. intros Hb. right. exists b. auto. Qed.

Lemma wrapped_after {S} (cs : list metric) (l : labels) (b : pyval S) :
  bare b -> wrapped cs l (match cs with [] => b | _ => Done end).
Proof.
  intros Hb. destruct cs; [right; exists b; auto | left; reflexivity].
Qed.

Lemma handler_next_spec (cs : list metric) (l : labels)
  (rv : request_value) (w : world) :
  wrapped cs l rv ->
  exists p rv',
    handler_next rv w =
      (p, rv', w,
       match p with Item x => inbound_events cs l x | _ => [] end)
    /\ wrapped cs l rv'.
Proof.
  intros [-> | (b & Hb & ->)].
  - exists Stop, Done. split; [reflexivity | left; reflexivity].
  - unfold handler_next. rewrite next_chain.
    destruct b as [x | s | inner c l' | ]; simpl in *; try contradiction.
    + exists (Raised (OtherError "TypeError")), (match cs with [] => Obj x | _ => Done end).
      split; [reflexivity | apply (wrapped_after cs l (Obj x)); exact I].
    + unfold next_stream. destruct s as [[|x rest] f]; simpl.
      * destruct f as [e|]; simpl.
        -- exists (Raised e), (match cs with [] => Src (mk_stream [] (Some e)) | _ => Done end).
           split; [reflexivity | apply (wrapped_after cs l (Src _)); exact I].
        -- exists Stop, (match cs with [] => Src (mk_stream [] None) | _ => Done end).
           split; [reflexivity | apply (wrapped_after cs l (Src _)); exact I].
      * exists (Item x), (chain cs l (Src (mk_stream rest f))).
        split; [reflexivity
               | apply wrapped_chain; exact I].
    + exists Stop, (match cs with [] => Done | _ => Done end).
      split; [reflexivity | left; destruct cs; reflexivity].
Qed.

(** ** The events of a call are the events of its elements *)

Section Elements.
Variable self : PromServerInterceptor.
Variables rs ps : bool.
Variable l : labels.

Lemma elementwise_nil : elementwise self rs ps l [].
Proof. reflexivity. Qed.

Lemma deliveries_element (dx : direction * msg) :
  deliveries (element_events self rs ps l dx) = [dx].
Proof.
  destruct dx as [d x]. unfold element_events. simpl.
  rewrite deliveries_app, deliveries_incs. reflexivity.
Qed.

Lemma elementwise_element (dx : direction * msg) :
  elementwise self rs ps l (element_events self rs ps l dx).
Proof.
  unfold elementwise. rewrite deliveries_element. simpl.
  rewrite app_nil_r. reflexivity.
Qed.

Lemma elementwise_app (a b : trace) :
  elementwise self rs ps l a -> elementwise self rs ps l b ->
  elementwise self rs ps l (a ++ b).
Proof.
  unfold elementwise. intros Ha Hb.
  rewrite deliveries_app, flat_map_app, <- Ha, <- Hb. reflexivity.
Qed.

Lemma inbound_events_element (x : msg) :
  inbound_events (request_counters self rs) l x
  = element_events self rs ps l (Inbound, x).
Proof. reflexivity. Qed.

Lemma handler_next_elementwise (rv : request_value) (w : world) :
  wrapped (request_counters self rs) l rv ->
  exists p rv' t,
    handler_next rv w = (p, rv', w, t)
    /\ wrapped (request_counters self rs) l rv' /\ elementwise self rs ps l t.
Proof.
  intros H.
  destruct (handler_next_spec (request_counters self rs) l rv w H)
    as (p & rv' & Heq & Hw).
  exists p, rv'. eexists. split; [exact Heq|]. split; [exact Hw|].
  destruct p; try apply elementwise_nil.
  rewrite inbound_events_element. apply elementwise_element.
Qed.

Lemma run_body_spec (b : hbody) :
  forall (rv : request_value) (w : world),
    wrapped (request_counters self rs) l rv ->
    exists r w' t,
      run_body b rv w = (r, w', t)
      /\ ticks w' = ticks w /\ elementwise self rs ps l t
      /\ returned self rs l r.
Proof.
  induction b as [r | e | k IH | f k IH]; intros rv w Hrv; simpl.
  - destruct r as [x | g]; do 3 eexists;
      (split; [reflexivity|]); repeat split; simpl; auto using elementwise_nil.
  - do 3 eexists. split; [reflexivity|].
    repeat split; simpl; auto using elementwise_nil.
  - destruct (handler_next_elementwise rv w Hrv) as (p & rv1 & t1 & -> & Hw1 & Ht1).
    destruct (IH p rv1 w Hw1) as (r & w2 & t2 & -> & Hticks & Ht2 & Hr).
    exists r, w2, (t1 ++ t2). split; [reflexivity|].
    repeat split; auto using elementwise_app.
  - destruct (IH rv (set_rpc f w) Hrv) as (r & w2 & t2 & -> & Hticks & Ht2 & Hr).
    exists r, w2, t2. split; [reflexivity|]. repeat split; auto.
Qed.

Lemma next_hgen_spec (g : hgen) :
  forall (rv : request_value) (w : world),
    wrapped (request_counters self rs) l rv ->
    exists p g' rv' w' t0,
      next_hgen g rv w =
        (p, (g', rv'), w',
         t0 ++ match p with Item y => [Avail Outbound y] | _ => [] end)
      /\ ticks w' = ticks w /\ elementwise self rs ps l t0
      /\ wrapped (request_counters self rs) l rv'.
Proof.
  induction g as [ | e | y k IH | k IH | f k IH]; intros rv w Hrv; simpl.
  - exists Stop, GStop, rv, w, []. repeat split; auto using elementwise_nil.
  - exists (Raised e), GStop, rv, w, []. repeat split; auto using elementwise_nil.
  - exists (Item y), k, rv, w, []. repeat split; auto using elementwise_nil.
  - destruct (handler_next_elementwise rv w Hrv) as (p & rv1 & t1 & -> & Hw1 & Ht1).
    destruct (IH p rv1 w Hw1) as (q & g' & rv' & w' & t0 & -> & Hticks & Ht0 & Hrv').
    exists q, g', rv', w', (t1 ++ t0). rewrite app_assoc.
    repeat split; auto using elementwise_app.
  - destruct (IH rv (set_rpc f w) Hrv)
      as (q & g' & rv' & w' & t0 & -> & Hticks & Ht0 & Hrv').
    exists q, g', rv', w', t0. repeat split; auto.
Qed.

Lemma response_base_bare (b : response_value) :
  response_base self rs l b -> bare b.
Proof. destruct b; simpl; auto. Qed.

Lemma response_wrapped_after (b : response_value) :
  response_base self rs l b ->
  response_wrapped self rs ps l
    (match response_counters self ps with [] => b | _ => Done end).
Proof.
  intros Hb. unfold response_wrapped.
  destruct (response_counters self ps);
    [right; exists b; auto | left; reflexivity].
Qed.

Lemma caller_next_spec (v : response_value) (w : world) :
  response_wrapped self rs ps l v ->
  exists p v' w' t,
    caller_next v w = (p, v', w', t)
    /\ ticks w' = ticks w /\ elementwise self rs ps l t
    /\ response_wrapped self rs ps l v'.
Proof.
  intros [-> | (b & Hb & ->)].
  - exists Stop, Done, w, []. repeat split; auto using elementwise_nil.
    left; reflexivity.
  - unfold caller_next. rewrite next_chain.
    destruct b as [x | [g rv] | inner c l' | ]; simpl in Hb; try contradiction.
    + simpl. do 4 eexists. split; [reflexivity|].
      repeat split; auto using elementwise_nil.
      apply (response_wrapped_after (Obj x)). exact I.
    + simpl. unfold next_frame. simpl.
      destruct (next_hgen_spec g rv w Hb)
        as (p & g' & rv' & w' & t0 & -> & Hticks & Ht0 & Hrv').
      destruct p as [y | | e].
      * do 4 eexists. split; [reflexivity|]. repeat split; auto.
        -- rewrite <- !app_assoc. apply elementwise_app; [exact Ht0|].
           apply (elementwise_element (Outbound, y)).
        -- right. exists (Src (g', rv')). simpl. auto.
      * do 4 eexists. split; [reflexivity|]. rewrite app_nil_r.
        repeat split; auto.
        apply (response_wrapped_after (Src (g', rv'))). exact Hrv'.
      * do 4 eexists. split; [reflexivity|]. rewrite app_nil_r.
        repeat split; auto.
        apply (response_wrapped_after (Src (g', rv'))). exact Hrv'.
    + simpl. do 4 eexists. split; [reflexivity|].
      repeat split; auto using elementwise_nil.
      apply (response_wrapped_after Done). exact I.
Qed.

Lemma drain_spec (pulls : nat) :
  forall (v : response_value) (w : world),
    response_wrapped self rs ps l v ->
    exists r w' t,
      drain pulls v w = (r, w', t)
      /\ ticks w' = ticks w /\ elementwise self rs ps l t.
Proof.
  induction pulls as [|n IH]; intros v w Hv; simpl.
  - do 3 eexists. split; [reflexivity|]. split; auto using elementwise_nil.
  - destruct (caller_next_spec v w Hv) as (p & v' & w' & t & -> & Hticks & Ht & Hv').
    destruct p as [x | | e].
    + destruct (IH v' w' Hv') as (r & w'' & t' & -> & Hticks' & Ht').
      do 3 eexists. split; [reflexivity|].
      split; [congruence | auto using elementwise_app].
    + do 3 eexists. split; [reflexivity|]. auto.
    + do 3 eexists. split; [reflexivity|]. auto.
Qed.
End Elements.

(** ** The instrumented handler, step by step *)

Lemma new_behavior_eq (timer : nat -> Z) (self : PromServerInterceptor)
  (svc mth : string) (f : rpc_behavior) (rs ps : bool) (r : request) (w : world) :
  new_behavior timer self svc mth (Some f) rs ps (of_request r) w =
  let lbl := call_labels rs ps svc mth in
  let '(rb, wb, tb) := handler_run self svc mth f rs ps r w in
  let wf := after_finally self ps wb in
  let tf := latency_events timer self ps (lbl None) (ticks w) (ticks wb) in
  let pre := started_events self rs (lbl None) ++ Invoke :: tb in
  match rb with
  | Ok v =>
      if ps
      then (Ok (chain (response_counters self ps) (lbl None) v), wf, pre ++ tf)
      else (Ok v, wf,
            pre ++ Inc (handled_metric self)
                       (lbl (Some (name (_compute_status_code (rpc wb))))) :: tf)
  | Exc e => (Exc e, wf, pre ++ error_events self lbl e ++ tf)
  end.
Proof.
  unfold new_behavior, handler_run, call_labels, instrumented_request,
    wrap_iterator_inc_counter, call, bind, ret, emit, raise, try_finally,
    try_except_RpcError, default_timer, get_rpc_state, latency_events,
    after_finally, started_events, error_events, observes, started_metric,
    handled_metric, latency_metric, response_counters.
  destruct self as [hist legacy]; simpl.
  destruct rs, ps, legacy, hist; simpl;
    match goal with
    | |- context [run_body ?b ?rv ?w0] =>
        destruct (run_body b rv w0) as [[rb wb] tb]
    end;
    destruct rb as [v | [c d | k]]; simpl;
    rewrite ?app_nil_r, <- ?app_assoc; reflexivity.
Qed.

Lemma instrumented_request_chain (self : PromServerInterceptor) (rs : bool)
  (l : labels) (rv : request_value) :
  instrumented_request self rs l rv = chain (request_counters self rs) l rv.
Proof.
  unfold instrumented_request, request_counters.
  destruct rs, (_legacy self); reflexivity.
Qed.

Lemma of_request_bare (r : request) : bare (of_request r).
Proof. destruct r; exact I. Qed.

(** The wrapped behaviour takes no reading of the timer, its events are the
    events of the request elements it pulls, and what it returns refers to
    the instrumented request only. *)
Lemma handler_run_spec (self : PromServerInterceptor) (svc mth : string)
  (f : rpc_behavior) (rs ps : bool) (r : request) (w : world) :
  exists rb wb tb,
    handler_run self svc mth f rs ps r w = (rb, wb, tb)
    /\ ticks wb = S (ticks w)
    /\ elementwise self rs ps (call_labels rs ps svc mth None) tb
    /\ returned self rs (call_labels rs ps svc mth None) rb.
Proof.
  unfold handler_run.
  set (l := call_labels rs ps svc mth None).
  set (rv := instrumented_request self rs l (of_request r)).
  assert (Hrv : wrapped (request_counters self rs) l rv).
  { unfold rv. rewrite instrumented_request_chain.
    apply wrapped_chain, of_request_bare. }
  destruct (run_body_spec self rs ps l (f rv) rv
              (mk_world (S (ticks w)) (rpc w)) Hrv)
    as (rb & wb & tb & Heq & Hticks & Ht & Hr).
  exists rb, wb, tb. auto.
Qed.

Lemma deliveries_started self rs l : deliveries (started_events self rs l) = [].
Proof. unfold started_events. destruct rs; reflexivity. Qed.

Lemma deliveries_latency timer self ps l a b :
  deliveries (latency_events timer self ps l a b) = [].
Proof. unfold latency_events. destruct (observes self ps); reflexivity. Qed.

Lemma deliveries_error self lbl e : deliveries (error_events self lbl e) = [].
Proof. unfold error_events. destruct (is_RpcError e); reflexivity. Qed.

Lemma deliveries_completion timer self ps lbl n rb wb :
  deliveries (completion_events timer self ps lbl n rb wb) = [].
Proof.
  unfold completion_events. destruct rb, ps; simpl;
    rewrite ?deliveries_app, ?deliveries_error, ?deliveries_latency; reflexivity.
Qed.

Lemma latency_events_streaming timer self l a b :
  latency_events timer self true l a b = [].
Proof. reflexivity. Qed.

(** The trace of a call: the started increment, the invocation, the events of
    the elements that were delivered, and the completion events. *)
Lemma serve_trace (timer : nat -> Z) (self : PromServerInterceptor)
  (svc mth : string) (f : rpc_behavior) (rs ps : bool) (r : request)
  (pulls : nat) (w : world) :
  trace_of (serve timer self svc mth f rs ps r pulls w) =
  started_events self rs (call_labels rs ps svc mth None)
    ++ Invoke
    :: flat_map (element_events self rs ps (call_labels rs ps svc mth None))
         (deliveries (trace_of (serve timer self svc mth f rs ps r pulls w)))
    ++ completion_events timer self ps (call_labels rs ps svc mth) (ticks w)
         (outcome_of (handler_run self svc mth f rs ps r w))
         (world_of (handler_run self svc mth f rs ps r w)).
Proof.
  unfold serve, bind. rewrite new_behavior_eq.
  destruct (handler_run_spec self svc mth f rs ps r w)
    as (rb & wb & tb & Heq & Hticks & Ht & Hr).
  rewrite Heq. unfold outcome_of, world_of, trace_of. simpl.
  rewrite Hticks.
  set (lbl := call_labels rs ps svc mth) in *.
  destruct rb as [v | e].
  - destruct ps.
    + rewrite latency_events_streaming.
      assert (Hv : response_wrapped self rs true (lbl None)
                     (chain (response_counters self true) (lbl None) v)).
      { right. exists v. split; [|reflexivity].
        destruct v as [x | [g rv] | inner c l' | ]; simpl in *; auto. }
      destruct (drain_spec self rs true (lbl None) pulls _
                  (after_finally self true wb) Hv)
        as (rd & wd & td & Hd & _ & Htd).
      rewrite Hd. simpl. rewrite !app_nil_r.
      rewrite !deliveries_app, deliveries_started. simpl.
      rewrite ?deliveries_app, flat_map_app.
      unfold elementwise in Ht, Htd. rewrite <- Ht, <- Htd, <- app_assoc.
      reflexivity.
    + simpl. rewrite !deliveries_app, deliveries_started. simpl.
      rewrite ?deliveries_app. simpl. rewrite deliveries_latency, !app_nil_r.
      unfold elementwise in Ht. rewrite <- Ht, <- !app_assoc. reflexivity.
  - simpl. rewrite !deliveries_app, deliveries_started. simpl.
    rewrite ?deliveries_app, deliveries_error, deliveries_latency, !app_nil_r.
    unfold elementwise in Ht. rewrite <- Ht, <- !app_assoc. reflexivity.
Qed.

(** ** Counting over the events of elements *)

Lemma count_inc_elements (self : PromServerInterceptor) (rs ps : bool)
  (l : labels) (r : role) (segs : list (direction * msg)) :
  count_inc r (flat_map (element_events self rs ps l) segs) =
  List.length (filter is_inbound segs) * count_role r (request_counters self rs)
  + List.length (filter is_outbound segs) * count_role r (response_counters self ps).
Proof.
  induction segs as [|[d x] segs IH]; simpl; [reflexivity|].
  rewrite !count_inc_app, count_inc_incs, IH. simpl.
  destruct d; unfold is_inbound, is_outbound; simpl; lia.
Qed.

Lemma observations_elements (self : PromServerInterceptor) (rs ps : bool)
  (l : labels) (segs : list (direction * msg)) :
  observations (flat_map (element_events self rs ps l) segs) = [].
Proof.
  induction segs as [|[d x] segs IH]; simpl; [reflexivity|].
  change (observations
            ((map (fun m => Inc m l)
                (match d with
                 | Inbound => request_counters self rs
                 | Outbound => response_counters self ps
                 end) ++ [Deliver d x])
             ++ flat_map (element_events self rs ps l) segs) = []).
  rewrite !observations_app, observations_incs, IH. reflexivity.
Qed.

Lemma count_inc_started (self : PromServerInterceptor) (rs : bool) (l : labels)
  (r : role) :
  count_inc r (started_events self rs l) =
  if rs then 0 else if role_eqb Started r then 1 else 0.
Proof.
  unfold started_events, started_metric.
  destruct rs, (_legacy self), r; reflexivity.
Qed.

Lemma count_inc_latency timer self ps l a b (r : role) :
  count_inc r (latency_events timer self ps l a b) = 0.
Proof.
  unfold latency_events. destruct (observes self ps); reflexivity.
Qed.

Lemma count_inc_error (self : PromServerInterceptor)
  (lbl : option string -> labels) (e : exn) (r : role) :
  count_inc r (error_events self lbl e) =
  if is_RpcError e && role_eqb Handled r then 1 else 0.
Proof.
  unfold error_events, handled_metric.
  destruct (is_RpcError e), (_legacy self), r; reflexivity.
Qed.

Lemma count_inc_completion timer self ps lbl n rb wb (r : role) :
  count_inc r (completion_events timer self ps lbl n rb wb) =
  if role_eqb Handled r then
    match rb with
    | Ok _ => if ps then 0 else 1
    | Exc e => if is_RpcError e then 1 else 0
    end
  else 0.
Proof.
  unfold completion_events. destruct rb as [v | e].
  - destruct ps; simpl; [destruct r; reflexivity|].
    rewrite count_inc_latency. unfold handled_metric.
    destruct (_legacy self), r; reflexivity.
  - rewrite count_inc_app, count_inc_error, count_inc_latency.
    destruct (is_RpcError e), r; reflexivity.
Qed.

Lemma observations_started self rs l : observations (started_events self rs l) = [].
Proof. unfold started_events. destruct rs; reflexivity. Qed.

Lemma observations_error self lbl e : observations (error_events self lbl e) = [].
Proof. unfold error_events. destruct (is_RpcError e); reflexivity. Qed.

Lemma observations_latency timer self ps l a b :
  observations (latency_events timer self ps l a b) =
  latency_events timer self ps l a b.
Proof. unfold latency_events. destruct (observes self ps); reflexivity. Qed.

Lemma observations_completion timer self ps lbl n rb wb :
  observations (completion_events timer self ps lbl n rb wb) =
  latency_events timer self ps (lbl None) n (S n).
Proof.
  unfold completion_events. destruct rb as [v | e].
  - destruct ps; simpl; [reflexivity | apply observations_latency].
  - rewrite observations_app, observations_error, observations_latency.
    reflexivity.
Qed.

(** The counts of a whole call. *)
Lemma serve_count (timer : nat -> Z) (self : PromServerInterceptor)
  (svc mth : string) (f : rpc_behavior) (rs ps : bool) (r : request)
  (pulls : nat) (w : world) (ro : role) :
  count_inc ro (trace_of (serve timer self svc mth f rs ps r pulls w)) =
  (if rs then 0 else if role_eqb Started ro then 1 else 0)
  + (inbound (trace_of (serve timer self svc mth f rs ps r pulls w))
       * count_role ro (request_counters self rs)
     + outbound (trace_of (serve timer self svc mth f rs ps r pulls w))
       * count_role ro (response_counters self ps))
  + (if role_eqb Handled ro then
       match outcome_of (handler_run self svc mth f rs ps r w) with
       | Ok _ => if ps then 0 else 1
       | Exc e => if is_RpcError e then 1 else 0
       end
     else 0).
Proof.
  rewrite serve_trace at 1.
  rewrite count_inc_app, count_inc_started.
  change (Invoke :: ?a) with ([Invoke] ++ a).
  rewrite !count_inc_app, count_inc_elements, count_inc_completion.
  unfold inbound, outbound, is_outbound. simpl. lia.
Qed.

Lemma serve_observations (timer : nat -> Z) (self : PromServerInterceptor)
  (svc mth : string) (f : rpc_behavior) (rs ps : bool) (r : request)
  (pulls : nat) (w : world) :
  observations (trace_of (serve timer self svc mth f rs ps r pulls w)) =
  latency_events timer self ps (call_labels rs ps svc mth None)
    (ticks w) (S (ticks w)).
Proof.
  rewrite serve_trace.
  rewrite observations_app, observations_started.
  change (Invoke :: ?a) with ([Invoke] ++ a).
  rewrite !observations_app, observations_elements, observations_completion.
  reflexivity.
Qed.

(** When the response is not streamed, a call is one run of the
    instrumented handler. *)
Lemma serve_unary (timer : nat -> Z) (self : PromServerInterceptor)
  (svc mth : string) (f : rpc_behavior) (rs : bool) (r : request)
  (pulls : nat) (w : world) :
  serve timer self svc mth f rs false r pulls w =
  new_behavior timer self svc mth (Some f) rs false (of_request r) w.
Proof.
  unfold serve, bind, ret.
  destruct (new_behavior timer self svc mth (Some f) rs false (of_request r) w)
    as [[[v | e] w'] t]; rewrite ?app_nil_r; reflexivity.
Qed.

(** ** Completion of calls whose response is not streamed *)

Lemma no_completion_counters (self : PromServerInterceptor) (rs ps : bool)
  (r : role) :
  (r = Started \/ r = Handled \/ r = Latency) ->
  count_role r (request_counters self rs) = 0
  /\ count_role r (response_counters self ps) = 0.
Proof.
  unfold request_counters, response_counters.
  intros [-> | [-> | ->]]; destruct rs, ps, (_legacy self); split; reflexivity.
Qed.

Lemma handled_count (timer : nat -> Z) (self : PromServerInterceptor)
  (svc mth : string) (f : rpc_behavior) (rs ps : bool) (r : request)
  (pulls : nat) (w : world) :
  count_inc Handled (trace_of (serve timer self svc mth f rs ps r pulls w)) =
  match outcome_of (handler_run self svc mth f rs ps r w) with
  | Ok _ => if ps then 0 else 1
  | Exc e => if is_RpcError e then 1 else 0
  end.
Proof.
  rewrite serve_count.
  destruct (no_completion_counters self rs ps Handled) as [-> ->]; [auto|].
  destruct rs; simpl; lia.
Qed.

(** C4: when the handler of a call whose response is not streamed raises an
    RPC-level error, the instrumented handler raises the same error, and
    exactly one handled increment is recorded, labelled with the code of the
    error when the error is a call with a code and with UNKNOWN otherwise. *)
Theorem rpc_error_handled_once (timer : nat -> Z) (self : PromServerInterceptor)
  (svc mth : string) (f : rpc_behavior) (rs : bool) (r : request) (w : world)
  (c : option StatusCode) (d : string) (wb : world) (tb : trace) :
  handler_run self svc mth f rs false r w = (Exc (RpcError c d), wb, tb) ->
  outcome_of (new_behavior timer self svc mth (Some f) rs false (of_request r) w)
    = Exc (RpcError c d)
  /\ count_inc Handled
       (trace_of (new_behavior timer self svc mth (Some f) rs false (of_request r) w))
     = 1
  /\ In (Inc (handled_metric self)
             (call_labels rs false svc mth
                (Some (match c with Some s => name s | None => name UNKNOWN end))))
        (trace_of (new_behavior timer self svc mth (Some f) rs false (of_request r) w)).
Proof.
  intros H. split; [|split].
  - rewrite new_behavior_eq, H. reflexivity.
  - rewrite <- (serve_unary timer self svc mth f rs r 0 w), handled_count, H.
    reflexivity.
  - rewrite new_behavior_eq, H. unfold trace_of, error_events. simpl.
    rewrite ?in_app_iff. simpl. auto 8.
Qed.

Lemma rpc_error_handled_once_witness :
  handler_run default_interceptor "Greeter" "SayHello" not_found false false
    (Message "alice") open_call
  = (Exc (RpcError (Some NOT_FOUND) "no such user"),
     mk_world 1 (mk_rpc_state "open" None), [])
  /\ (outcome_of (new_behavior stepping_back default_interceptor "Greeter" "SayHello"
                    (Some not_found) false false (of_request (Message "alice")) open_call)
      = Exc (RpcError (Some NOT_FOUND) "no such user")
      /\ count_inc Handled
           (trace_of (new_behavior stepping_back default_interceptor "Greeter" "SayHello"
                        (Some not_found) false false (of_request (Message "alice")) open_call))
         = 1
      /\ In (Inc (handled_metric default_interceptor)
                 (call_labels false false "Greeter" "SayHello" (Some (name NOT_FOUND))))
            (trace_of (new_behavior stepping_back default_interceptor "Greeter" "SayHello"
                         (Some not_found) false false (of_request (Message "alice")) open_call))).
Proof.
  split; [reflexivity|].
  apply (rpc_error_handled_once stepping_back default_interceptor "Greeter" "SayHello"
           not_found false (Message "alice") open_call (Some NOT_FOUND) "no such user"
           (mk_world 1 (mk_rpc_state "open" None)) []).
  reflexivity.
Defined.

(** C5: when the handler of a call whose response is not streamed returns,
    the instrumented handler returns the same value and exactly one handled
    increment is recorded.  Its code is CANCELLED when the client side of the
    call state is cancelled, OK when no code was set, and the code that was
    set otherwise.  The call state is left as the handler left it. *)
Theorem success_handled_once (timer : nat -> Z) (self : PromServerInterceptor)
  (svc mth : string) (f : rpc_behavior) (rs : bool) (r : request) (w : world)
  (v : response_value) (wb : world) (tb : trace) :
  handler_run self svc mth f rs false r w = (Ok v, wb, tb) ->
  outcome_of (new_behavior timer self svc mth (Some f) rs false (of_request r) w)
    = Ok v
  /\ count_inc Handled
       (trace_of (new_behavior timer self svc mth (Some f) rs false (of_request r) w))
     = 1
  /\ In (Inc (handled_metric self)
             (call_labels rs false svc mth
                (Some (name (if String.eqb (client (rpc wb)) "cancelled"
                             then CANCELLED
                             else match code (rpc wb) with
                                  | None => OK
                                  | Some c => c
                                  end)))))
        (trace_of (new_behavior timer self svc mth (Some f) rs false (of_request r) w))
  /\ rpc (world_of (new_behavior timer self svc mth (Some f) rs false (of_request r) w))
     = rpc wb.
Proof.
  intros H. split; [|split; [|split]].
  - rewrite new_behavior_eq, H. reflexivity.
  - rewrite <- (serve_unary timer self svc mth f rs r 0 w), handled_count, H.
    reflexivity.
  - rewrite new_behavior_eq, H. unfold trace_of. simpl.
    rewrite ?in_app_iff. simpl. auto 8.
  - rewrite new_behavior_eq, H. unfold world_of, after_finally. simpl.
    destruct (observes self false); reflexivity.
Qed.

Lemma success_handled_once_witness :
  handler_run legacy_interceptor "Greeter" "SayHello" say_hello false false
    (Message "alice") (mk_world 0 (mk_rpc_state "cancelled" (Some ABORTED)))
  = (Ok (Obj "hello"), mk_world 1 (mk_rpc_state "cancelled" (Some ABORTED)), [])
  /\ (outcome_of (new_behavior stepping_back legacy_interceptor "Greeter" "SayHello"
                    (Some say_hello) false false (of_request (Message "alice"))
                    (mk_world 0 (mk_rpc_state "cancelled" (Some ABORTED))))
      = Ok (Obj "hello")
      /\ count_inc Handled
           (trace_of (new_behavior stepping_back legacy_interceptor "Greeter" "SayHello"
                        (Some say_hello) false false (of_request (Message "alice"))
                        (mk_world 0 (mk_rpc_state "cancelled" (Some ABORTED)))))
         = 1
      /\ In (Inc (handled_metric legacy_interceptor)
                 (call_labels false false "Greeter" "SayHello" (Some (name CANCELLED))))
            (trace_of (new_behavior stepping_back legacy_interceptor "Greeter" "SayHello"
                         (Some say_hello) false false (of_request (Message "alice"))
                         (mk_world 0 (mk_rpc_state "cancelled" (Some ABORTED)))))
      /\ rpc (world_of (new_behavior stepping_back legacy_interceptor "Greeter" "SayHello"
                          (Some say_hello) false false (of_request (Message "alice"))
                          (mk_world 0 (mk_rpc_state "cancelled" (Some ABORTED)))))
         = mk_rpc_state "cancelled" (Some ABORTED)).
Proof.
  split; [reflexivity|].
  apply (success_handled_once stepping_back legacy_interceptor "Greeter" "SayHello"
           say_hello false (Message "alice")
           (mk_world 0 (mk_rpc_state "cancelled" (Some ABORTED)))
           (Obj "hello") (mk_world 1 (mk_rpc_state "cancelled" (Some ABORTED))) []).
  reflexivity.
Defined.

(** C6: for a call whose response is not streamed, whatever the handler
    does, exactly one latency observation is recorded in legacy mode (on the
    legacy latency metric) and, outside legacy mode, when the histogram flag
    is set (on the histogram); none is recorded when both are off.  The value
    is the maximum of zero and the difference of the timer readings at exit
    and at entry, and is never negative. *)
Theorem latency_observed_once (timer : nat -> Z) (self : PromServerInterceptor)
  (svc mth : string) (f : rpc_behavior) (rs : bool) (r : request) (w : world) :
  observations
    (trace_of (new_behavior timer self svc mth (Some f) rs false (of_request r) w))
  = (if _legacy self then
       [Observe LEGACY_GRPC_SERVER_HANDLED_LATENCY_SECONDS
          (call_labels rs false svc mth None)
          (Z.max (timer (S (ticks w)) - timer (ticks w)) 0)]
     else if _enable_handling_time_histogram self then
       [Observe GRPC_SERVER_HANDLED_HISTOGRAM
          (call_labels rs false svc mth None)
          (Z.max (timer (S (ticks w)) - timer (ticks w)) 0)]
     else [])
  /\ (0 <= Z.max (timer (S (ticks w)) - timer (ticks w)) 0)%Z.
Proof.
  split; [|lia].
  rewrite <- (serve_unary timer self svc mth f rs r 0 w), serve_observations.
  unfold latency_events, observes, latency_metric. rewrite max0_max.
  destruct (_legacy self), (_enable_handling_time_histogram self); reflexivity.
Qed.

(** ** Faults and streamed responses *)

(** When the instrumented handler raises, the call ends there. *)
Lemma serve_raises (timer : nat -> Z) (self : PromServerInterceptor)
  (svc mth : string) (f : rpc_behavior) (rs ps : bool) (r : request)
  (pulls : nat) (w : world) (e : exn) :
  outcome_of (new_behavior timer self svc mth (Some f) rs ps (of_request r) w)
    = Exc e ->
  serve timer self svc mth f rs ps r pulls w =
  new_behavior timer self svc mth (Some f) rs ps (of_request r) w.
Proof.
  unfold serve, bind, outcome_of.
  destruct (new_behavior timer self svc mth (Some f) rs ps (of_request r) w)
    as [[[v | e'] w'] t]; simpl; [discriminate | reflexivity].
Qed.

(** C3, as the code has it: when the handler raises a fault that is not an
    RPC-level error, the instrumented handler raises the same fault and no
    handled increment is recorded.  After the events of the handler itself
    nothing is recorded, except that a call whose response is not streamed
    still gets its latency observation when legacy mode or the histogram flag
    is on. *)
Theorem fault_passes_through (timer : nat -> Z) (self : PromServerInterceptor)
  (svc mth : string) (f : rpc_behavior) (rs ps : bool) (r : request) (w : world)
  (k : string) (wb : world) (tb : trace) :
  handler_run self svc mth f rs ps r w = (Exc (OtherError k), wb, tb) ->
  outcome_of (new_behavior timer self svc mth (Some f) rs ps (of_request r) w)
    = Exc (OtherError k)
  /\ trace_of (new_behavior timer self svc mth (Some f) rs ps (of_request r) w)
     = (if rs then [] else [Inc (started_metric self) (call_labels rs ps svc mth None)])
         ++ Invoke :: tb
         ++ (if negb ps && (_legacy self || _enable_handling_time_histogram self)
             then [Observe (latency_metric self) (call_labels rs ps svc mth None)
                     (Z.max (timer (S (ticks w)) - timer (ticks w)) 0)]
             else [])
  /\ count_inc Handled
       (trace_of (new_behavior timer self svc mth (Some f) rs ps (of_request r) w))
     = 0.
Proof.
  intros H.
  assert (Hout : outcome_of
                   (new_behavior timer self svc mth (Some f) rs ps (of_request r) w)
                 = Exc (OtherError k)).
  { rewrite new_behavior_eq, H. reflexivity. }
  split; [exact Hout | split].
  - destruct (handler_run_spec self svc mth f rs ps r w)
      as (rb & wb' & tb' & Heq & Hticks & _).
    rewrite H in Heq. injection Heq as <- <- <-.
    rewrite new_behavior_eq, H. unfold trace_of. simpl.
    rewrite Hticks. unfold latency_events, observes, started_events.
    rewrite max0_max, <- app_assoc. reflexivity.
  - rewrite <- (serve_raises timer self svc mth f rs ps r 0 w _ Hout),
      handled_count, H.
    reflexivity.
Qed.

Lemma fault_passes_through_witness :
  handler_run legacy_interceptor "Greeter" "SayHello" value_error false false
    (Message "alice") open_call
  = (Exc (OtherError "ValueError"), mk_world 1 (mk_rpc_state "open" None), [])
  /\ (outcome_of (new_behavior stepping_back legacy_interceptor "Greeter" "SayHello"
                    (Some value_error) false false (of_request (Message "alice")) open_call)
      = Exc (OtherError "ValueError")
      /\ trace_of (new_behavior stepping_back legacy_interceptor "Greeter" "SayHello"
                     (Some value_error) false false (of_request (Message "alice")) open_call)
         = [Inc (started_metric legacy_interceptor)
              (call_labels false false "Greeter" "SayHello" None)]
             ++ Invoke :: []
             ++ [Observe (latency_metric legacy_interceptor)
                   (call_labels false false "Greeter" "SayHello" None)
                   (Z.max (stepping_back 1 - stepping_back 0) 0)]
      /\ count_inc Handled
           (trace_of (new_behavior stepping_back legacy_interceptor "Greeter" "SayHello"
                        (Some value_error) false false (of_request (Message "alice")) open_call))
         = 0).
Proof.
  split; [reflexivity|].
  apply (fault_passes_through stepping_back legacy_interceptor "Greeter" "SayHello"
           value_error false false (Message "alice") open_call "ValueError"
           (mk_world 1 (mk_rpc_state "open" None)) []).
  reflexivity.
Defined.

(** C3 as stated fails: in legacy mode a unary handler that raises a
    ValueError at once is followed by a latency observation, a metric that
    had not been recorded before the fault. *)
Lemma latency_recorded_after_fault :
  handler_run legacy_interceptor "Greeter" "SayHello" value_error false false
    (Message "alice") open_call
  = (Exc (OtherError "ValueError"), mk_world 1 (mk_rpc_state "open" None), [])
  /\ written
       (after_invoke
          (trace_of (new_behavior stepping_back legacy_interceptor "Greeter" "SayHello"
                       (Some value_error) false false (of_request (Message "alice"))
                       open_call)))
     = [LEGACY_GRPC_SERVER_HANDLED_LATENCY_SECONDS].
Proof. split; reflexivity. Qed.

(** C2, as the code has it: for a call whose response is streamed no latency
    observation is ever recorded, however many responses are consumed and
    however the sequence ends.  No handled increment is recorded when the
    handler returns its response sequence; exactly one is recorded when the
    invocation of the handler itself raises an RPC-level error.  Besides the
    per-message counters, a call that is not request-streaming records its
    one started increment. *)
Theorem streamed_response_completion (timer : nat -> Z)
  (self : PromServerInterceptor) (svc mth : string) (f : rpc_behavior) (rs : bool)
  (r : request) (pulls : nat) (w : world) :
  observations (trace_of (serve timer self svc mth f rs true r pulls w)) = []
  /\ count_inc Latency (trace_of (serve timer self svc mth f rs true r pulls w)) = 0
  /\ count_inc Handled (trace_of (serve timer self svc mth f rs true r pulls w))
     = match outcome_of (handler_run self svc mth f rs true r w) with
       | Exc (RpcError _ _) => 1
       | _ => 0
       end
  /\ count_inc Started (trace_of (serve timer self svc mth f rs true r pulls w))
     = if rs then 0 else 1.
Proof.
  split; [|split; [|split]]; cycle 3.
  - rewrite serve_count.
    destruct (no_completion_counters self rs true Started) as [-> ->]; [auto|].
    destruct rs; simpl; lia.
  - rewrite serve_observations. reflexivity.
  - rewrite serve_count.
    destruct (no_completion_counters self rs true Latency) as [-> ->]; [auto|].
    destruct rs; simpl; lia.
  - rewrite handled_count.
    destruct (outcome_of (handler_run self svc mth f rs true r w)) as [v | [c d | k]];
      reflexivity.
Qed.

(** C2 as stated fails: a response-streaming handler whose invocation raises
    NOT_FOUND gets a handled increment. *)
Lemma streamed_rpc_error_is_handled :
  count_inc Handled
    (trace_of (serve stepping_back default_interceptor "Greeter" "ListUsers"
                 not_found false true (Message "alice") 5 open_call))
  = 1.
Proof. reflexivity. Qed.

(** ** Per-element counters *)

Lemma availabilities_app (a b : trace) :
  availabilities (a ++ b) = availabilities a ++ availabilities b.
Proof.
  induction a as [|e a IH]; simpl; [reflexivity|].
  destruct e; simpl; rewrite IH; reflexivity.
Qed.

Lemma availabilities_incs (l : labels) (ms : list metric) :
  availabilities (map (fun m => Inc m l) ms) = [].
Proof. induction ms; simpl; auto. Qed.

Lemma availabilities_elements (self : PromServerInterceptor) (rs ps : bool)
  (l : labels) (segs : list (direction * msg)) :
  availabilities (flat_map (element_events self rs ps l) segs) = segs.
Proof.
  induction segs as [|[d x] segs IH]; simpl; [reflexivity|].
  rewrite !availabilities_app, availabilities_incs, IH. reflexivity.
Qed.

Lemma availabilities_completion timer self ps lbl n rb wb :
  availabilities (completion_events timer self ps lbl n rb wb) = [].
Proof.
  unfold completion_events, error_events, latency_events.
  destruct rb as [v | e]; [|destruct (is_RpcError e)];
    destruct (observes self ps), ps; reflexivity.
Qed.

(** Every element that becomes available is delivered, and in that order. *)
Lemma serve_availabilities (timer : nat -> Z) (self : PromServerInterceptor)
  (svc mth : string) (f : rpc_behavior) (rs ps : bool) (r : request)
  (pulls : nat) (w : world) :
  availabilities (trace_of (serve timer self svc mth f rs ps r pulls w)) =
  deliveries (trace_of (serve timer self svc mth f rs ps r pulls w)).
Proof.
  rewrite serve_trace at 1.
  rewrite availabilities_app. simpl.
  rewrite availabilities_app, availabilities_elements, availabilities_completion.
  unfold started_events. destruct rs; simpl; rewrite app_nil_r; reflexivity.
Qed.

(** C7: a call that is not request-streaming records exactly one started
    increment, on the started counter of the family selected by the mode
    flag, and records it before the wrapped behaviour is invoked.  A
    request-streaming call records no started increment; each request element
    delivered to the handler is preceded by one increment of the received
    counter placed around the request sequence, and these are the only
    received increments apart from those of streamed responses outside legacy
    mode. *)
Theorem started_or_received (timer : nat -> Z) (self : PromServerInterceptor)
  (svc mth : string) (f : rpc_behavior) (ps : bool) (r : request)
  (pulls : nat) (w : world) :
  (exists rest,
      trace_of (serve timer self svc mth f false ps r pulls w)
      = Inc (started_metric self) (call_labels false ps svc mth None)
          :: Invoke :: rest
      /\ count_inc Started rest = 0)
  /\ count_inc Started (trace_of (serve timer self svc mth f true ps r pulls w)) = 0
  /\ (exists post,
        trace_of (serve timer self svc mth f true ps r pulls w)
        = Invoke
            :: flat_map (element_events self true ps (call_labels true ps svc mth None))
                 (deliveries (trace_of (serve timer self svc mth f true ps r pulls w)))
            ++ post
        /\ deliveries post = [] /\ count_inc Received post = 0)
  /\ (forall x,
        element_events self true ps (call_labels true ps svc mth None) (Inbound, x)
        = Avail Inbound x
            :: Inc GRPC_SERVER_STREAM_MSG_RECEIVED (call_labels true ps svc mth None)
            :: (if _legacy self then []
                else [Inc GRPC_SERVER_STREAM_MSG_SENT (call_labels true ps svc mth None)])
            ++ [Deliver Inbound x])
  /\ count_inc Received (trace_of (serve timer self svc mth f true ps r pulls w))
     = inbound (trace_of (serve timer self svc mth f true ps r pulls w))
       + (if ps && negb (_legacy self)
          then outbound (trace_of (serve timer self svc mth f true ps r pulls w))
          else 0).
Proof.
  split; [|split; [|split; [|split]]].
  - eexists. split; [rewrite serve_trace at 1; reflexivity|].
    rewrite count_inc_app, count_inc_elements, count_inc_completion.
    destruct (no_completion_counters self false ps Started) as [-> ->]; [auto|].
    simpl. lia.
  - rewrite serve_count.
    destruct (no_completion_counters self true ps Started) as [-> ->]; [auto|].
    simpl. lia.
  - eexists. split; [rewrite serve_trace at 1; reflexivity|].
    split; [apply deliveries_completion | apply count_inc_completion].
  - intros x. unfold element_events, request_counters.
    destruct (_legacy self); reflexivity.
  - rewrite serve_count.
    set (i := inbound _). set (o := outbound _).
    unfold request_counters, response_counters, count_role.
    destruct ps, (_legacy self); simpl; lia.
Qed.

(** C8, as the code has it: in a call whose response is streamed, every
    response element that becomes available is followed at once by its
    increments and then delivered: one sent increment, preceded outside
    legacy mode by one received increment.  The sent increments of the call
    are those N, plus, outside legacy mode, one for each request element
    delivered to the handler of a request-streaming call; the received
    increments are N outside legacy mode and none in legacy mode, plus one
    for each request element delivered. *)
Theorem sent_per_response (timer : nat -> Z) (self : PromServerInterceptor)
  (svc mth : string) (f : rpc_behavior) (rs : bool) (r : request)
  (pulls : nat) (w : world) :
  (exists post,
      trace_of (serve timer self svc mth f rs true r pulls w)
      = started_events self rs (call_labels rs true svc mth None)
          ++ Invoke
          :: flat_map (element_events self rs true (call_labels rs true svc mth None))
               (deliveries (trace_of (serve timer self svc mth f rs true r pulls w)))
          ++ post
      /\ deliveries post = []
      /\ count_inc Sent post = 0 /\ count_inc Received post = 0)
  /\ (forall y,
        element_events self rs true (call_labels rs true svc mth None) (Outbound, y)
        = Avail Outbound y
            :: (if _legacy self
                then [Inc LEGACY_GRPC_SERVER_MSG_SENT_TOTAL_COUNTER
                        (call_labels rs true svc mth None)]
                else [Inc GRPC_SERVER_STREAM_MSG_RECEIVED
                        (call_labels rs true svc mth None);
                      Inc GRPC_SERVER_STREAM_MSG_SENT
                        (call_labels rs true svc mth None)])
            ++ [Deliver Outbound y])
  /\ availabilities (trace_of (serve timer self svc mth f rs true r pulls w))
     = deliveries (trace_of (serve timer self svc mth f rs true r pulls w))
  /\ count_inc Sent (trace_of (serve timer self svc mth f rs true r pulls w))
     = outbound (trace_of (serve timer self svc mth f rs true r pulls w))
       + (if rs && negb (_legacy self)
          then inbound (trace_of (serve timer self svc mth f rs true r pulls w))
          else 0)
  /\ count_inc Received (trace_of (serve timer self svc mth f rs true r pulls w))
     = (if _legacy self then 0
        else outbound (trace_of (serve timer self svc mth f rs true r pulls w)))
       + (if rs
          then inbound (trace_of (serve timer self svc mth f rs true r pulls w))
          else 0).
Proof.
  split; [|split; [|split; [|split]]].
  - eexists. split; [rewrite serve_trace at 1; reflexivity|].
    split; [apply deliveries_completion|].
    split; apply count_inc_completion.
  - intros y. unfold element_events, response_counters.
    destruct (_legacy self); reflexivity.
  - apply serve_availabilities.
  - rewrite serve_count.
    set (i := inbound _). set (o := outbound _).
    unfold request_counters, response_counters, count_role.
    destruct rs, (_legacy self); simpl; lia.
  - rewrite serve_count.
    set (i := inbound _). set (o := outbound _).
    unfold request_counters, response_counters, count_role.
    destruct rs, (_legacy self); simpl; lia.
Qed.

(** C8 as stated fails: outside legacy mode a bidirectional call that yields
    one response after pulling one request records two sent increments. *)
Lemma bidi_sent_counts_requests :
  outbound
    (trace_of (serve stepping_back default_interceptor "Chat" "Talk" echo_one
                 true true (Messages (mk_stream ["ping"] None)) 5 open_call))
  = 1
  /\ count_inc Sent
       (trace_of (serve stepping_back default_interceptor "Chat" "Talk" echo_one
                    true true (Messages (mk_stream ["ping"] None)) 5 open_call))
     = 2.
Proof. split; reflexivity. Qed.

(** C1 fails on the code: in legacy mode a request-streaming call counts the
    request element it delivers on the received counter of the default
    family; the legacy received counter is not written. *)
Theorem legacy_request_stream_writes_default :
  written
    (trace_of (serve stepping_back legacy_interceptor "Greeter" "Collect" collect_one
                 true false (Messages (mk_stream ["a"] None)) 0 open_call))
  = [GRPC_SERVER_STREAM_MSG_RECEIVED;
     LEGACY_GRPC_SERVER_HANDLED_TOTAL_COUNTER;
     LEGACY_GRPC_SERVER_HANDLED_LATENCY_SECONDS]
  /\ family_of GRPC_SERVER_STREAM_MSG_RECEIVED = DefaultFamily.
Proof. split; reflexivity. Qed.

(** In legacy mode the received counter of the default family, incremented
    for the elements of a request stream, is the only metric of the default
    family that is written. *)
Lemma legacy_writes (timer : nat -> Z) (hist : bool) (svc mth : string)
  (f : rpc_behavior) (rs ps : bool) (r : request) (pulls : nat) (w : world) :
  Forall (fun m => is_legacy m = true
                   \/ (rs = true /\ m = GRPC_SERVER_STREAM_MSG_RECEIVED))
         (written (trace_of (serve timer (mk_interceptor hist true) svc mth f
                               rs ps r pulls w))).
Proof.
  rewrite serve_trace.
  set (segs := deliveries _). clearbody segs.
  rewrite written_app. apply Forall_app. split.
  - unfold started_events. destruct rs; simpl; repeat (apply Forall_cons || apply Forall_nil); auto.
  - simpl. rewrite written_app. apply Forall_app. split.
    + induction segs as [|[d x] segs IH]; simpl; [apply Forall_nil|].
      rewrite written_app. apply Forall_app. split; [|exact IH].
      destruct d, rs, ps; simpl; repeat (apply Forall_cons || apply Forall_nil); auto.
    + unfold completion_events, error_events, latency_events, observes.
      destruct (outcome_of _) as [v | e]; [|destruct (is_RpcError e)];
        destruct ps; simpl; repeat (apply Forall_cons || apply Forall_nil); auto.
Qed.

(** ** Wrapping handler objects *)

(** C9: for a handler object of any of the four shapes, the wrapped handler
    has the same shape, its entry point for that shape is the wrapper applied
    to the entry point of the original for that shape, its three other entry
    points are empty, and its request deserializer and response serializer
    are those of the original. *)
Theorem wrap_covers_all_shapes {B B' : Type} (h : RpcMethodHandler B)
  (fn : option B -> bool -> bool -> B') :
  exists h',
    _wrap_rpc_behavior (Some h) fn = Some h'
    /\ request_streaming h' = request_streaming h
    /\ response_streaming h' = response_streaming h
    /\ entry_point (request_streaming h) (response_streaming h) h'
       = Some (fn (entry_point (request_streaming h) (response_streaming h) h)
                  (request_streaming h) (response_streaming h))
    /\ (forall rs ps,
          (rs, ps) <> (request_streaming h, response_streaming h) ->
          entry_point rs ps h' = None)
    /\ request_deserializer h' = request_deserializer h
    /\ response_serializer h' = response_serializer h.
Proof.
  destruct h as [rs ps de se uu us su ss].
  unfold _wrap_rpc_behavior. simpl.
  destruct rs, ps; simpl; eexists; (split; [reflexivity|]); simpl;
    repeat split; intros [|] [|] Hne; try reflexivity; congruence.
Qed.

(** ** Interception *)

(** C10: when the method path of the call is parsed and the continuation
    has no handler for the call, interception returns no handler, does not
    raise, records nothing and takes no reading of the timer. *)
Theorem no_handler_no_metrics (timer : nat -> Z)
  (split_method_call : handler_call_details -> result (string * string * bool))
  (self : PromServerInterceptor)
  (continuation : handler_call_details -> option (RpcMethodHandler rpc_behavior))
  (details : handler_call_details) (svc mth : string) (ok : bool) (w : world) :
  split_method_call details = Ok (svc, mth, ok) ->
  continuation details = None ->
  intercept_service timer split_method_call self continuation details w
  = (Ok None, w, []).
Proof.
  intros Hsplit Hnone.
  unfold intercept_service, bind, ret. rewrite Hsplit, Hnone. reflexivity.
Qed.

Lemma no_handler_no_metrics_witness :
  intercept_service stepping_back (fun _ => Ok ("Greeter", "SayHello", true))
    default_interceptor (fun _ => None) (mk_details "/Greeter/SayHello") open_call
  = (Ok None, open_call, []).
Proof.
  apply (no_handler_no_metrics stepping_back
           (fun _ => Ok ("Greeter", "SayHello", true))
           default_interceptor (fun _ => None) (mk_details "/Greeter/SayHello")
           "Greeter" "SayHello" true open_call);
    reflexivity.
Defined.

(** * Further properties of the interceptor *)

(** ** What the instrumented handler leaves alone *)


(** X2: when the invocation of the wrapped behaviour raises an RPC-level
    error, whatever the shape of the call, the same error is raised again,
    the handled increment with the code of the error comes after everything
    the behaviour did, and only the latency observation of a call whose
    response is not streamed follows it. *)
Theorem rpc_error_any_shape (timer : nat -> Z) (self : PromServerInterceptor)
  (svc mth : string) (f : rpc_behavior) (rs ps : bool) (r : request) (w : world)
  (c : option StatusCode) (d : string) (wb : world) (tb : trace) :
  handler_run self svc mth f rs ps r w = (Exc (RpcError c d), wb, tb) ->
  outcome_of (new_behavior timer self svc mth (Some f) rs ps (of_request r) w)
    = Exc (RpcError c d)
  /\ trace_of (new_behavior timer self svc mth (Some f) rs ps (of_request r) w)
     = (if rs then [] else [Inc (started_metric self) (call_labels rs ps svc mth None)])
         ++ Invoke :: tb
         ++ Inc (handled_metric self)
              (call_labels rs ps svc mth
                 (Some (match c with Some s => name s | None => name UNKNOWN end)))
         :: (if negb ps && (_legacy self || _enable_handling_time_histogram self)
             then [Observe (latency_metric self) (call_labels rs ps svc mth None)
                     (Z.max (timer (S (ticks w)) - timer (ticks w)) 0)]
             else []).
Proof.
  intros H.
  destruct (handler_run_spec self svc mth f rs ps r w)
    as (rb & wb' & tb' & Heq & Hticks & _).
  rewrite H in Heq. injection Heq as <- <- <-.
  rewrite new_behavior_eq, H. unfold outcome_of, trace_of. simpl.
  split; [reflexivity|].
  rewrite Hticks. unfold latency_events, observes, started_events, error_events.
  rewrite max0_max, <- app_assoc. simpl. destruct c; reflexivity.
Qed.

Lemma rpc_error_any_shape_witness :
  handler_run default_interceptor "Greeter" "ListUsers" not_found false true
    (Message "alice") open_call
  = (Exc (RpcError (Some NOT_FOUND) "no such user"),
     mk_world 1 (mk_rpc_state "open" None), [])
  /\ (outcome_of (new_behavior stepping_back default_interceptor "Greeter" "ListUsers"
                    (Some not_found) false true (of_request (Message "alice")) open_call)
      = Exc (RpcError (Some NOT_FOUND) "no such user")
      /\ trace_of (new_behavior stepping_back default_interceptor "Greeter" "ListUsers"
                     (Some not_found) false true (of_request (Message "alice")) open_call)
         = [Inc (started_metric default_interceptor)
              (call_labels false true "Greeter" "ListUsers" None)]
             ++ Invoke :: []
             ++ Inc (handled_metric default_interceptor)
                  (call_labels false true "Greeter" "ListUsers" (Some (name NOT_FOUND)))
             :: []).
Proof.
  split; [reflexivity|].
  apply (rpc_error_any_shape stepping_back default_interceptor "Greeter" "ListUsers"
           not_found false true (Message "alice") open_call (Some NOT_FOUND)
           "no such user" (mk_world 1 (mk_rpc_state "open" None)) []).
  reflexivity.
Defined.

(** X3: when the wrapped behaviour of a response-streaming call returns, the
    instrumented handler records nothing for the responses yet and takes no
    second reading of the timer: it returns the value of the behaviour
    inside the counting generators, the sent counter outermost. *)
Theorem streamed_response_is_lazy (timer : nat -> Z) (self : PromServerInterceptor)
  (svc mth : string) (f : rpc_behavior) (rs : bool) (r : request) (w : world)
  (v : response_value) (wb : world) (tb : trace) :
  handler_run self svc mth f rs true r w = (Ok v, wb, tb) ->
  new_behavior timer self svc mth (Some f) rs true (of_request r) w
  = (Ok (if _legacy self
         then Count v LEGACY_GRPC_SERVER_MSG_SENT_TOTAL_COUNTER
                (call_labels rs true svc mth None)
         else Count (Count v GRPC_SERVER_STREAM_MSG_RECEIVED
                       (call_labels rs true svc mth None))
                GRPC_SERVER_STREAM_MSG_SENT (call_labels rs true svc mth None)),
     wb,
     (if rs then [] else [Inc (started_metric self) (call_labels rs true svc mth None)])
       ++ Invoke :: tb).
Proof.
  intros H. rewrite new_behavior_eq, H. simpl.
  unfold response_counters, started_events. rewrite app_nil_r.
  destruct (_legacy self); reflexivity.
Qed.

Lemma streamed_response_is_lazy_witness :
  new_behavior stepping_back legacy_interceptor "Chat" "Talk" (Some echo_one)
    true true (of_request (Messages (mk_stream ["ping"] None))) open_call
  = (Ok (Count (Src (GNext (fun _ => GYield "pong" GStop),
                     Count (Src (mk_stream ["ping"] None))
                       GRPC_SERVER_STREAM_MSG_RECEIVED
                       (call_labels true true "Chat" "Talk" None)))
           LEGACY_GRPC_SERVER_MSG_SENT_TOTAL_COUNTER
           (call_labels true true "Chat" "Talk" None)),
     mk_world 1 (mk_rpc_state "open" None),
     [] ++ Invoke :: []).
Proof.
  apply (streamed_response_is_lazy stepping_back legacy_interceptor "Chat" "Talk"
           echo_one true (Messages (mk_stream ["ping"] None)) open_call).
  reflexivity.
Defined.

(** X4: a handler object may lack the entry point of its shape.  Calling the
    instrumented handler then raises the TypeError of calling None: the
    started increment of a call that is not request-streaming and the
    latency observation of a call whose response is not streamed are
    recorded, a handled increment is not. *)
Theorem missing_entry_point (timer : nat -> Z) (self : PromServerInterceptor)
  (svc mth : string) (rs ps : bool) (rv : request_value) (w : world) :
  outcome_of (new_behavior timer self svc mth None rs ps rv w)
    = Exc (OtherError "TypeError")
  /\ trace_of (new_behavior timer self svc mth None rs ps rv w)
     = (if rs then [] else [Inc (started_metric self) (call_labels rs ps svc mth None)])
         ++ (if negb ps && (_legacy self || _enable_handling_time_histogram self)
             then [Observe (latency_metric self) (call_labels rs ps svc mth None)
                     (Z.max (timer (S (ticks w)) - timer (ticks w)) 0)]
             else [])
  /\ count_inc Handled (trace_of (new_behavior timer self svc mth None rs ps rv w)) = 0.
Proof.
  unfold new_behavior, call, bind, ret, emit, raise, try_finally,
    try_except_RpcError, default_timer, started_metric, latency_metric,
    call_labels, outcome_of, trace_of, wrap_iterator_inc_counter.
  rewrite <- max0_max.
  destruct self as [hist legacy]; simpl.
  destruct rs, ps, legacy, hist; simpl; repeat split; reflexivity.
Qed.

(** ** Families and labels of what a call writes *)

Lemma written_elements_default (hist : bool) (rs ps : bool) (l : labels)
  (segs : list (direction * msg)) :
  Forall (fun m => family_of m = DefaultFamily)
         (written (flat_map (element_events (mk_interceptor hist false) rs ps l) segs)).
Proof.
  induction segs as [|[d x] segs IH]; simpl; [apply Forall_nil|].
  rewrite written_app. apply Forall_app. split; [|exact IH].
  destruct d, rs, ps; simpl; repeat (apply Forall_cons || apply Forall_nil); auto.
Qed.

(** X5: outside legacy mode a call writes metrics of the default family
    only, whatever its shape and outcome. *)
Theorem default_mode_writes_default_only (timer : nat -> Z) (hist : bool)
  (svc mth : string) (f : rpc_behavior) (rs ps : bool) (r : request)
  (pulls : nat) (w : world) :
  Forall (fun m => family_of m = DefaultFamily)
         (written (trace_of (serve timer (mk_interceptor hist false) svc mth f
                               rs ps r pulls w))).
Proof.
  rewrite serve_trace.
  set (segs := deliveries _). clearbody segs.
  rewrite written_app. apply Forall_app. split.
  - unfold started_events. destruct rs; simpl;
      repeat (apply Forall_cons || apply Forall_nil); auto.
  - simpl. rewrite written_app. apply Forall_app. split.
    + apply written_elements_default.
    + unfold completion_events, error_events, latency_events, observes.
      destruct (outcome_of _) as [v | e]; [|destruct (is_RpcError e)];
        destruct ps, hist; simpl;
        repeat (apply Forall_cons || apply Forall_nil); auto.
Qed.

(** X6: in legacy mode a call that is not request-streaming writes metrics
    of the legacy family only, whatever its outcome and whether or not its
    response is streamed. *)
Theorem legacy_mode_unary_request_writes_legacy_only (timer : nat -> Z)
  (hist : bool) (svc mth : string) (f : rpc_behavior) (ps : bool) (r : request)
  (pulls : nat) (w : world) :
  Forall (fun m => family_of m = LegacyFamily)
         (written (trace_of (serve timer (mk_interceptor hist true) svc mth f
                               false ps r pulls w))).
Proof.
  eapply Forall_impl; [|apply legacy_writes].
  intros m [H | [H _]]; [|discriminate].
  destruct m; simpl in *; try reflexivity; discriminate.
Qed.

Lemma elements_well_labelled (self : PromServerInterceptor) (rs ps : bool)
  (svc mth : string) (segs : list (direction * msg)) :
  Forall (well_labelled rs ps svc mth)
         (flat_map (element_events self rs ps (call_labels rs ps svc mth None)) segs).
Proof.
  induction segs as [|[d x] segs IH]; simpl; [apply Forall_nil|].
  apply Forall_cons; [exact I|].
  apply Forall_app. split; [|exact IH].
  apply Forall_app. split; [|repeat (apply Forall_cons || apply Forall_nil); exact I].
  unfold request_counters, response_counters.
  destruct d, rs, ps, (_legacy self); simpl;
    repeat (apply Forall_cons || apply Forall_nil); simpl; auto.
Qed.

(** X7: every metric write of a call carries the call type given by the two
    streaming flags and the service and method names of the call.  A handled
    increment carries, in addition, the name of a status code; no other
    write carries a code. *)
Theorem call_is_well_labelled (timer : nat -> Z) (self : PromServerInterceptor)
  (svc mth : string) (f : rpc_behavior) (rs ps : bool) (r : request)
  (pulls : nat) (w : world) :
  Forall (well_labelled rs ps svc mth)
         (trace_of (serve timer self svc mth f rs ps r pulls w)).
Proof.
  rewrite serve_trace.
  set (segs := deliveries _). clearbody segs.
  apply Forall_app. split.
  - unfold started_events, started_metric.
    destruct rs, (_legacy self); simpl;
      repeat (apply Forall_cons || apply Forall_nil); simpl; auto.
  - apply Forall_cons; [exact I|].
    apply Forall_app. split; [apply elements_well_labelled|].
    unfold completion_events, error_events, latency_events, observes,
      handled_metric, latency_metric.
    destruct (outcome_of _) as [v | [[c|] d | k]];
      destruct ps, (_legacy self), (_enable_handling_time_histogram self); simpl;
      repeat (apply Forall_cons || apply Forall_nil); simpl;
      repeat split; eauto; exists UNKNOWN; reflexivity.
Qed.

(** ** Interception and handler objects *)


(** X9: when the method path is parsed and the continuation has a handler,
    interception returns a handler of the same shape and with the same
    request deserializer and response serializer, whose entry point for that
    shape is the instrumented handler built from the parsed service and
    method names and the entry point of the original. *)
Theorem interception_instruments (timer : nat -> Z)
  (split_method_call : handler_call_details -> result (string * string * bool))
  (self : PromServerInterceptor)
  (continuation : handler_call_details -> option (RpcMethodHandler rpc_behavior))
  (details : handler_call_details) (svc mth : string) (ok : bool)
  (h : RpcMethodHandler rpc_behavior) (w : world) :
  split_method_call details = Ok (svc, mth, ok) ->
  continuation details = Some h ->
  exists h',
    outcome_of (intercept_service timer split_method_call self continuation details w)
      = Ok (Some h')
    /\ request_streaming h' = request_streaming h
    /\ response_streaming h' = response_streaming h
    /\ entry_point (request_streaming h) (response_streaming h) h'
       = Some (new_behavior timer self svc mth
                 (entry_point (request_streaming h) (response_streaming h) h)
                 (request_streaming h) (response_streaming h))
    /\ request_deserializer h' = request_deserializer h
    /\ response_serializer h' = response_serializer h.
Proof.
  intros Hsplit Hsome.
  unfold intercept_service, bind, ret, outcome_of. rewrite Hsplit, Hsome.
  destruct h as [rs ps de se uu us su ss]. unfold _wrap_rpc_behavior. simpl.
  destruct rs, ps; simpl; eexists; (split; [reflexivity|]); simpl;
    repeat split; reflexivity.
Qed.

Lemma interception_instruments_witness :
  exists h',
    outcome_of (intercept_service stepping_back
                  (fun _ => Ok ("Greeter", "SayHello", true)) default_interceptor
                  (fun _ => Some (unary_unary_rpc_method_handler say_hello None None))
                  (mk_details "/Greeter/SayHello") open_call)
      = Ok (Some h')
    /\ request_streaming h' = false
    /\ response_streaming h' = false
    /\ entry_point false false h'
       = Some (new_behavior stepping_back default_interceptor "Greeter" "SayHello"
                 (Some say_hello) false false)
    /\ request_deserializer h' = None
    /\ response_serializer h' = None.
Proof.
  apply (interception_instruments stepping_back
           (fun _ => Ok ("Greeter", "SayHello", true)) default_interceptor
           (fun _ => Some (unary_unary_rpc_method_handler say_hello None None))
           (mk_details "/Greeter/SayHello") "Greeter" "SayHello" true
           (unary_unary_rpc_method_handler say_hello None None) open_call);
    reflexivity.
Defined.

(** X10: wrapping composes.  Wrapping a wrapped handler keeps shape,
    deserializer and serializer, and the outer wrapper always receives an
    entry point that is present, namely the result of the inner wrapper, even
    when the original handler had none for its shape. *)
Theorem wrapping_composes {B B' B'' : Type} (h : RpcMethodHandler B)
  (fn : option B -> bool -> bool -> B') (fn' : option B' -> bool -> bool -> B'') :
  exists h'',
    _wrap_rpc_behavior (_wrap_rpc_behavior (Some h) fn) fn' = Some h''
    /\ request_streaming h'' = request_streaming h
    /\ response_streaming h'' = response_streaming h
    /\ entry_point (request_streaming h) (response_streaming h) h''
       = Some (fn' (Some (fn (entry_point (request_streaming h) (response_streaming h) h)
                             (request_streaming h) (response_streaming h)))
                   (request_streaming h) (response_streaming h))
    /\ request_deserializer h'' = request_deserializer h
    /\ response_serializer h'' = response_serializer h.
Proof.
  destruct h as [rs ps de se uu us su ss].
  unfold _wrap_rpc_behavior. simpl.
  destruct rs, ps; simpl; eexists; (split; [reflexivity|]); simpl;
    repeat split; reflexivity.
Qed.

(** ** The interceptor is transparent to the call *)

Lemma messages_app (a b : trace) : messages (a ++ b) = messages a ++ messages b.
Proof. unfold messages. apply filter_app. Qed.

Lemma messages_incs (l : labels) (ms : list metric) :
  messages (map (fun m => Inc m l) ms) = [].
Proof. induction ms; simpl; auto. Qed.

Lemma messages_started self rs l : messages (started_events self rs l) = [].
Proof. unfold started_events. destruct rs; reflexivity. Qed.

Lemma messages_latency timer self ps l a b :
  messages (latency_events timer self ps l a b) = [].
Proof. unfold latency_events. destruct (observes self ps); reflexivity. Qed.

Lemma messages_error self lbl e : messages (error_events self lbl e) = [].
Proof. unfold error_events. destruct (is_RpcError e); reflexivity. Qed.

Lemma request_sim_after (cs : list metric) (l : labels) :
  request_sim cs l (match cs with [] => Src (mk_stream [] None) | _ => Done end)
              (Src (mk_stream [] None)).
Proof.
  destruct cs; [left; split; [exact I | reflexivity] | right; right; auto].
Qed.

(** A pull by the handler sees the same on the instrumented request as on
    the plain one. *)
Lemma handler_next_sim (cs : list metric) (l : labels)
  (a b : request_value) (w1 w2 : world) :
  request_sim cs l a b ->
  exists p a' b' ta tb,
    handler_next a w1 = (p, a', w1, ta)
    /\ handler_next b w2 = (p, b', w2, tb)
    /\ request_sim cs l a' b' /\ messages ta = tb.
Proof.
  intros [[Hbare <-] | [(s & Hfin & -> & ->) | [-> ->]]].
  - destruct a as [x | [[|x rest] [e|]] | inner c l' | ]; simpl in Hbare;
      try contradiction; unfold handler_next; simpl;
      do 5 eexists; (split; [reflexivity|]); (split; [reflexivity|]);
      (split; [left; split; [exact I | reflexivity] | reflexivity]).
  - unfold handler_next. rewrite next_chain. simpl. unfold next_stream.
    destruct s as [[|x rest] fn]; simpl in *; subst fn.
    + do 5 eexists. split; [reflexivity|]. split; [reflexivity|].
      split; [apply request_sim_after | reflexivity].
    + do 5 eexists. split; [reflexivity|]. split; [reflexivity|].
      split.
      * right. left. exists (mk_stream rest None). auto.
      * change (Avail Inbound x :: ?t) with ([Avail Inbound x] ++ t).
        rewrite !messages_app, messages_incs. reflexivity.
  - unfold handler_next. simpl.
    do 5 eexists. split; [reflexivity|]. split; [reflexivity|].
    split; [right; right; auto | reflexivity].
Qed.

Lemma run_body_sim (cs : list metric) (l : labels) (b : hbody) :
  forall (a a' : request_value) (w1 w2 : world),
    request_sim cs l a a' -> rpc w1 = rpc w2 ->
    exists r1 r2 w1' w2' t1 t2,
      run_body b a w1 = (r1, w1', t1) /\ run_body b a' w2 = (r2, w2', t2)
      /\ returned_sim cs l r1 r2 /\ rpc w1' = rpc w2' /\ messages t1 = t2.
Proof.
  induction b as [r | e | k IH | f k IH]; intros a a' w1 w2 Hsim Hrpc; simpl.
  - destruct r as [x | g]; do 6 eexists;
      (split; [reflexivity|]); (split; [reflexivity|]);
      simpl; auto.
  - do 6 eexists. split; [reflexivity|]. split; [reflexivity|]. simpl. auto.
  - destruct (handler_next_sim cs l a a' w1 w2 Hsim)
      as (p & a1 & a1' & ta & tb & -> & -> & Hsim1 & Hm).
    destruct (IH p a1 a1' w1 w2 Hsim1 Hrpc)
      as (r1 & r2 & w1' & w2' & t1 & t2 & -> & -> & Hr & Hrpc' & Hm').
    do 6 eexists. split; [reflexivity|]. split; [reflexivity|].
    split; [exact Hr|]. split; [exact Hrpc'|].
    rewrite messages_app, Hm, Hm'. reflexivity.
  - apply IH; [exact Hsim|]. unfold set_rpc. simpl. rewrite Hrpc. reflexivity.
Qed.

Lemma next_hgen_sim (cs : list metric) (l : labels) (g : hgen) :
  forall (a a' : request_value) (w1 w2 : world),
    request_sim cs l a a' -> rpc w1 = rpc w2 ->
    exists p g' a1 a1' w1' w2' t1 t2,
      next_hgen g a w1 = (p, (g', a1), w1', t1)
      /\ next_hgen g a' w2 = (p, (g', a1'), w2', t2)
      /\ request_sim cs l a1 a1' /\ rpc w1' = rpc w2' /\ messages t1 = t2.
Proof.
  induction g as [ | e | y k IH | k IH | f k IH]; intros a a' w1 w2 Hsim Hrpc; simpl.
  - do 8 eexists. split; [reflexivity|]. split; [reflexivity|]. auto.
  - do 8 eexists. split; [reflexivity|]. split; [reflexivity|]. auto.
  - do 8 eexists. split; [reflexivity|]. split; [reflexivity|]. auto.
  - destruct (handler_next_sim cs l a a' w1 w2 Hsim)
      as (p & a1 & a1' & ta & tb & -> & -> & Hsim1 & Hm).
    destruct (IH p a1 a1' w1 w2 Hsim1 Hrpc)
      as (q & g' & a2 & a2' & w1' & w2' & t1 & t2 & -> & -> & Hs & Hrpc' & Hm').
    do 8 eexists. split; [reflexivity|]. split; [reflexivity|].
    split; [exact Hs|]. split; [exact Hrpc'|].
    rewrite messages_app, Hm, Hm'. reflexivity.
  - apply IH; [exact Hsim|]. unfold set_rpc. simpl. rewrite Hrpc. reflexivity.
Qed.

(** A pull by the runtime sees the same on the instrumented response as on
    the plain one. *)
Lemma caller_next_sim (cs cp : list metric) (l : labels)
  (v1 v2 : response_value) (w1 w2 : world) :
  response_sim cs cp l v1 v2 -> rpc w1 = rpc w2 ->
  exists p v1' v2' w1' w2' t1 t2,
    caller_next v1 w1 = (p, v1', w1', t1)
    /\ caller_next v2 w2 = (p, v2', w2', t2)
    /\ rpc w1' = rpc w2' /\ messages t1 = t2
    /\ match p with Item _ => response_sim cs cp l v1' v2' | _ => True end.
Proof.
  intros (a0 & -> & Hbase) Hrpc.
  unfold caller_next. rewrite next_chain.
  destruct a0 as [x | [g rv] | inner c l' | ];
    destruct v2 as [y | [g' rv'] | inner' c' l'' | ]; simpl in Hbase;
    try contradiction.
  - subst y. simpl. do 7 eexists.
    split; [reflexivity|]. split; [reflexivity|]. auto.
  - destruct Hbase as [<- Hsim]. simpl. unfold next_frame. simpl.
    destruct (next_hgen_sim cs l g rv rv' w1 w2 Hsim Hrpc)
      as (p & g1 & a1 & a1' & w1' & w2' & t1 & t2 & -> & -> & Hs & Hrpc' & Hm).
    destruct p as [y | | e]; do 7 eexists;
      (split; [reflexivity|]); (split; [reflexivity|]);
      (split; [exact Hrpc'|]); (split; [|try exact I]).
    + rewrite !messages_app, messages_incs, Hm, app_nil_r. reflexivity.
    + exists (Src (g1, a1)). split; [reflexivity|]. simpl. auto.
    + exact Hm.
    + exact Hm.
Qed.

Lemma drain_sim (cs cp : list metric) (l : labels) (pulls : nat) :
  forall (v1 v2 : response_value) (w1 w2 : world),
    response_sim cs cp l v1 v2 -> rpc w1 = rpc w2 ->
    exists r1 r2 w1' w2' t1 t2,
      drain pulls v1 w1 = (r1, w1', t1) /\ drain pulls v2 w2 = (r2, w2', t2)
      /\ failure r1 = failure r2 /\ rpc w1' = rpc w2' /\ messages t1 = t2.
Proof.
  induction pulls as [|n IH]; intros v1 v2 w1 w2 Hsim Hrpc; simpl.
  - do 6 eexists. split; [reflexivity|]. split; [reflexivity|]. auto.
  - destruct (caller_next_sim cs cp l v1 v2 w1 w2 Hsim Hrpc)
      as (p & v1' & v2' & w1' & w2' & t1 & t2 & -> & -> & Hrpc' & Hm & Hnext).
    destruct p as [x | | e].
    + destruct (IH v1' v2' w1' w2' Hnext Hrpc')
        as (r1 & r2 & w1'' & w2'' & t1' & t2' & -> & -> & Hf & Hrpc'' & Hm').
      do 6 eexists. split; [reflexivity|]. split; [reflexivity|].
      split; [exact Hf|]. split; [exact Hrpc''|].
      rewrite messages_app, Hm, Hm'. reflexivity.
    + do 6 eexists. split; [reflexivity|]. split; [reflexivity|]. auto.
    + do 6 eexists. split; [reflexivity|]. split; [reflexivity|]. auto.
Qed.

Lemma orderly_request_sim (self : PromServerInterceptor) (rs : bool)
  (l : labels) (r : request) :
  orderly rs r ->
  request_sim (request_counters self rs) l
    (instrumented_request self rs l (of_request r)) (of_request r).
Proof.
  intros H. rewrite instrumented_request_chain.
  destruct rs.
  - destruct r as [x | s]; simpl in H; [contradiction|].
    right. left. exists s. auto.
  - left. split; [apply of_request_bare | reflexivity].
Qed.

Ltac plain_messages :=
  repeat first
    [ rewrite messages_app | rewrite messages_started
    | rewrite messages_latency | rewrite messages_error
    | rewrite app_nil_r | progress simpl ].

(** X11: the interceptor is transparent to the call.  Take a request of the
    kind the handler declares whose stream ends without an error, and a
    behaviour that does not tell the instrumented request from the plain
    one.  Then the call through the instrumented handler invokes the
    behaviour, delivers the same requests to it and the same responses to
    the runtime, in the same order, as the call without the interceptor;
    both end with the same error or with none, leave the same call state,
    and a call whose response is not streamed returns the same message. *)
Theorem instrumentation_is_transparent (timer : nat -> Z)
  (self : PromServerInterceptor) (svc mth : string) (f : rpc_behavior)
  (rs ps : bool) (r : request) (pulls : nat) (w : world) :
  orderly rs r ->
  f (instrumented_request self rs (call_labels rs ps svc mth None) (of_request r))
    = f (of_request r) ->
  messages (trace_of (serve timer self svc mth f rs ps r pulls w))
    = trace_of (serve_plain f ps r pulls w)
  /\ failure (outcome_of (serve timer self svc mth f rs ps r pulls w))
     = failure (outcome_of (serve_plain f ps r pulls w))
  /\ rpc (world_of (serve timer self svc mth f rs ps r pulls w))
     = rpc (world_of (serve_plain f ps r pulls w))
  /\ (ps = false ->
      reply (outcome_of (serve timer self svc mth f rs ps r pulls w))
      = reply (outcome_of (serve_plain f ps r pulls w))).
Proof.
  intros Hord Hf.
  set (l := call_labels rs ps svc mth None) in *.
  pose proof (orderly_request_sim self rs l r Hord) as Hsim.
  unfold serve, serve_plain, call, bind, emit. rewrite new_behavior_eq.
  unfold handler_run. fold l. rewrite Hf.
  destruct (run_body_sim (request_counters self rs) l (f (of_request r))
              (instrumented_request self rs l (of_request r)) (of_request r)
              (mk_world (S (ticks w)) (rpc w)) w Hsim eq_refl)
    as (r1 & r2 & w1 & w2 & t1 & t2 & -> & -> & Hr & Hrpc & Hm).
  unfold outcome_of, world_of, trace_of.
  destruct r1 as [v1 | e1]; destruct r2 as [v2 | e2]; simpl in Hr;
    try contradiction;
    try (destruct v1 as [? | [? ?] | ? ? ? | ]; contradiction).
  - destruct ps.
    + assert (Hresp : response_sim (request_counters self rs)
                        (response_counters self true) l
                        (chain (response_counters self true) l v1) v2).
      { exists v1. split; [reflexivity|].
        destruct v1 as [x | [g rv] | inner c l' | ];
          destruct v2 as [y | [g' rv'] | inner' c' l'' | ]; simpl in Hr;
          try contradiction; exact Hr. }
      assert (Hrpc' : rpc (after_finally self true w1) = rpc w2) by exact Hrpc.
      destruct (drain_sim (request_counters self rs) (response_counters self true)
                  l pulls _ v2 (after_finally self true w1) w2 Hresp Hrpc')
        as (d1 & d2 & w1' & w2' & td1 & td2 & -> & -> & Hfail & Hrpcd & Hmd).
      plain_messages. rewrite Hm, Hmd.
      repeat split; auto. discriminate.
    + plain_messages. rewrite Hm.
      unfold after_finally. destruct (observes self false); simpl;
        repeat split; auto;
        destruct v1 as [x | [g rv] | inner c l' | ];
        destruct v2 as [y | [g' rv'] | inner' c' l'' | ]; simpl in Hr;
        try contradiction; subst; reflexivity.
  - subst e2. plain_messages. rewrite Hm.
    unfold after_finally. destruct (observes self ps); simpl; repeat split; auto.
Qed.

Lemma instrumentation_is_transparent_witness :
  orderly true (Messages (mk_stream ["ping"] None))
  /\ echo_one (instrumented_request default_interceptor true
                 (call_labels true true "Chat" "Talk" None)
                 (of_request (Messages (mk_stream ["ping"] None))))
     = echo_one (of_request (Messages (mk_stream ["ping"] None)))
  /\ (messages (trace_of (serve stepping_back default_interceptor "Chat" "Talk" echo_one
                            true true (Messages (mk_stream ["ping"] None)) 5 open_call))
      = trace_of (serve_plain echo_one true (Messages (mk_stream ["ping"] None)) 5 open_call)
      /\ failure (outcome_of (serve stepping_back default_interceptor "Chat" "Talk" echo_one
                                true true (Messages (mk_stream ["ping"] None)) 5 open_call))
         = failure (outcome_of (serve_plain echo_one true
                                  (Messages (mk_stream ["ping"] None)) 5 open_call))
      /\ rpc (world_of (serve stepping_back default_interceptor "Chat" "Talk" echo_one
                          true true (Messages (mk_stream ["ping"] None)) 5 open_call))
         = rpc (world_of (serve_plain echo_one true
                            (Messages (mk_stream ["ping"] None)) 5 open_call))
      /\ (true = false ->
          reply (outcome_of (serve stepping_back default_interceptor "Chat" "Talk" echo_one
                               true true (Messages (mk_stream ["ping"] None)) 5 open_call))
          = reply (outcome_of (serve_plain echo_one true
                                 (Messages (mk_stream ["ping"] None)) 5 open_call)))).
Proof.
  split; [reflexivity|]. split; [reflexivity|].
  apply (instrumentation_is_transparent stepping_back default_interceptor "Chat" "Talk"
           echo_one true true (Messages (mk_stream ["ping"] None)) 5 open_call);
    reflexivity.
Defined.
